(** * AI decision oversight demo: the worker's scoring, feedback and analytics

    A shallow embedding of [worker/src/index.ts]: the heuristic [scoreCase],
    the lazily created in-memory feedback store ([getStore]) and the request
    handler [fetch] with its five routes.

    Conventions of the embedding:
    - a JavaScript number is an IEEE-754 binary64 value, [spec_float] at
      precision 53 and maximal exponent 1024; integers that the code only adds
      and compares (the score, the tally counts, array lengths) are kept in [Z];
    - a JavaScript string is a [string]; only the ASCII letters have a lower
      case (no trigger phrase of [scoreCase] contains any other character);
    - [undefined] is the [None] of an [option];
    - an exception that the handler does not catch is the outcome [Throws];
    - the clock and the UUID generator are inputs ([Ambient]);
    - response headers (CORS) are left out: no route's status or body reads
      them. *)

From Stdlib Require Import ZArith List String Ascii Bool Lia.
From Stdlib Require Import Sorting.Sorted Sorting.Permutation.
From Stdlib Require Import SpecFloat.

Set Warnings "-register-all".
Import ListNotations.

Local Open Scope string_scope.
Local Open Scope Z_scope.

(** ** JavaScript strings *)

Module JsString.

Definition lower_ascii (c : ascii) : ascii :=
  let n := N_of_ascii c in
  if (65 <=? n)%N && (n <=? 90)%N then ascii_of_N (n + 32) else c.

(** [String.prototype.toLowerCase] *)
Fixpoint toLowerCase (s : string) : string :=
  match s with
  | EmptyString => EmptyString
  | String c s' => String (lower_ascii c) (toLowerCase s')
  end.

Fixpoint startsWith (s p : string) : bool :=
  match p, s with
  | EmptyString, _ => true
  | String a p', String b s' => Ascii.eqb a b && startsWith s' p'
  | String _ _, EmptyString => false
  end.

(** [String.prototype.includes]: [p] occurs in [s] at some position. *)
Fixpoint includes (s p : string) : bool :=
  startsWith s p ||
  match s with
  | EmptyString => false
  | String _ s' => includes s' p
  end.

End JsString.

(** ** JavaScript numbers *)

Module JsNumber.

Definition number := spec_float.

Definition prec : Z := 53.
Definition emax : Z := 1024.

(** The number denoted by an integer literal, or held by an integer-valued
    expression such as [xs.length]. *)
Definition of_Z (z : Z) : number := binary_normalize prec emax z 0 false.

Definition div (x y : number) : number := SFdiv prec emax x y.

(** [x < y] and [x > y] *)
Definition lt (x y : number) : bool := SFltb x y.
Definition gt (x y : number) : bool := SFltb y x.
Definition le (x y : number) : bool := SFleb x y.

(** The binary64 value nearest to [n/d], for [0 <= n] and [0 < d]: the
    correctly rounded quotient, computed on the integers themselves. *)
Definition nearest_quotient (n d : Z) : number :=
  let '(mz, ez, lz) := SFdiv_core_binary prec emax n 0 d 0 in
  binary_round_aux prec emax false mz ez lz.

(** The number that a decimal numeral with two fractional digits denotes,
    [h/100] for [0 <= h]: the literals [0.85] and [0.65], and what [Number]
    makes of such a string. *)
Definition hundredths (h : Z) : number := nearest_quotient h 100.

(** ToBoolean on a number: [+0], [-0] and [NaN] are falsy. *)
Definition truthy (x : number) : bool :=
  match x with
  | S754_zero _ | S754_nan => false
  | S754_infinity _ | S754_finite _ _ _ => true
  end.

End JsNumber.

Abbreviation number := JsNumber.number.

(** ** The scoring heuristic *)

(** [ScoreRequest["case"]] *)
Module Case.
Record t := mk {
  id : option string;
  (** declared as ["transaction" | "content" | "account"]; no code path
      looks at it beyond its truthiness *)
  type : string;
  summary : string;
  amount : option number;
  merchant : option string;
  user_context : option string
}.
End Case.

Inductive Verdict := Approve | Review | Reject.

(** What [scoreCase] returns: [{ score, verdict, confidence, signals }]. *)
Record Scored := mkScored {
  score : Z;
  verdict : Verdict;
  confidence : number;
  signals : list string
}.

(** [x ?? d] *)
Definition nullish_or {A} (x : option A) (d : A) : A :=
  match x with Some v => v | None => d end.

Infix "??" := nullish_or (at level 45, left associativity).

Section Rules.
Import JsString.

(** The template literal of line 90, lower-cased. *)
Definition case_text (input : Case.t) : string :=
  toLowerCase
    (Case.summary input ++ " " ++ (Case.merchant input ?? "") ++ " "
       ++ (Case.user_context input ?? "")).

(** [input.amount && input.amount > 500] *)
Definition high_amount (input : Case.t) : bool :=
  match Case.amount input with
  | None => false
  | Some a => JsNumber.truthy a && JsNumber.gt a (JsNumber.of_Z 500)
  end.

Definition urgency_language (text : string) : bool :=
  includes text "urgent" || includes text "immediately".

Definition high_risk_payment (text : string) : bool :=
  includes text "gift card" || includes text "wire" || includes text "crypto".

Definition social_engineering_phrase (text : string) : bool :=
  includes text "not a scam" || includes text "trust me".
End Rules.

(** The two mutable locals of [scoreCase], [score] and [signals]. *)
Definition Acc : Type := Z * list string.

(** [score += w; signals.push(name)] *)
Definition fire (w : Z) (name : string) (acc : Acc) : Acc :=
  (fst acc + w, (snd acc ++ [name])%list).

Definition when (b : bool) (f : Acc -> Acc) (acc : Acc) : Acc :=
  if b then f acc else acc.

(** [Math.min(100, Math.max(0, score))] *)
Definition clamp (s : Z) : Z := Z.min 100 (Z.max 0 s).

(** Lines 116-118. *)
Definition verdictOf (s : Z) : Verdict :=
  if 70 <=? s then Reject else if 40 <=? s then Review else Approve.

(** Line 120. *)
Definition confidenceOf (s : Z) : number :=
  if (80 <=? s) || (s <=? 20) then JsNumber.hundredths 85
  else JsNumber.hundredths 65.

Definition scoreCase (input : Case.t) : Scored :=
  let text := case_text input in
  let acc0 : Acc := (20, []) in
  let acc1 := when (high_amount input) (fire 25 "high_amount") acc0 in
  let acc2 := when (urgency_language text) (fire 15 "urgency_language") acc1 in
  let acc3 := when (high_risk_payment text) (fire 25 "high_risk_payment") acc2 in
  let acc4 :=
    when (social_engineering_phrase text) (fire 15 "social_engineering_phrase") acc3 in
  let s := clamp (fst acc4) in
  {| score := s;
     verdict := verdictOf s;
     confidence := confidenceOf s;
     signals := snd acc4 |}.

(** ** JSON values, as [request.json()] produces them *)

Inductive json :=
| JNull
| JBool (b : bool)
| JNum (x : number)
| JStr (s : string)
| JArr (items : list json)
| JObj (props : list (string * json)).

(** An object's own properties, in creation order. *)
Abbreviation props := (list (string * json)).

Fixpoint lookup (k : string) (ps : props) : option json :=
  match ps with
  | [] => None
  | (k', v) :: ps' => if String.eqb k k' then Some v else lookup k ps'
  end.

(** [o[k] = v]: an existing property keeps its place, a new one goes last. *)
Fixpoint set_prop (k : string) (v : json) (ps : props) : props :=
  match ps with
  | [] => [(k, v)]
  | (k', v') :: ps' =>
      if String.eqb k k' then (k, v) :: ps' else (k', v') :: set_prop k v ps'
  end.

(** Reading property [k] of a value that is neither [null] nor [undefined].
    The handler reads [case], [summary], [type], [case_id], [reviewer],
    [final_verdict], [action] and [reason_codes]; none of them is inherited
    from a prototype, so only an object's own properties can answer. *)
Definition get (k : string) (v : json) : option json :=
  match v with
  | JObj ps => lookup k ps
  | _ => None
  end.

(** ToBoolean *)
Definition truthy (v : option json) : bool :=
  match v with
  | None | Some JNull => false
  | Some (JBool b) => b
  | Some (JNum x) => JsNumber.truthy x
  | Some (JStr s) => negb (String.eqb s "")
  | Some (JArr _) | Some (JObj _) => true
  end.

(** Whether a value can be made a primitive, as string conversion, property
    keys and [>] require. An object answers through [toString], and a
    [toString] that parsing put on the object itself is no function, which
    leaves only the inherited [valueOf], answering the object: a TypeError.
    An array joins the strings of its elements, [null] counting as empty. *)
Fixpoint coercible (v : json) : bool :=
  match v with
  | JNull | JBool _ | JNum _ | JStr _ => true
  | JArr items => forallb coercible items
  | JObj ps =>
      match lookup "toString" ps with
      | Some _ => false
      | None => true
      end
  end.

(** ** Exceptions *)

Inductive fault := SyntaxError | TypeError.

Inductive result (A : Type) :=
| Ok (a : A)
| Raise (f : fault).
Arguments Ok {A} a.
Arguments Raise {A} f.

Definition bind {A B} (m : result A) (k : A -> result B) : result B :=
  match m with
  | Ok a => k a
  | Raise f => Raise f
  end.

Notation "x <- m ;; k" := (bind m (fun x => k))
  (at level 61, m at next level, right associativity).

(** [v.k]: a TypeError when [v] is [null] or [undefined]. *)
Definition member (k : string) (v : option json) : result (option json) :=
  match v with
  | None | Some JNull => Raise TypeError
  | Some j => Ok (get k j)
  end.

(** [v?.k] *)
Definition opt_member (k : string) (v : option json) : option json :=
  match v with
  | None | Some JNull => None
  | Some j => get k j
  end.

(** ** Requests, responses and the process-wide store *)

Inductive parsed :=
| Malformed
| Parsed (j : json).

Record Request := mkRequest {
  method : string;
  pathname : string;
  (** what [request.json()] finds in the body *)
  payload : parsed
}.

Record Env := mkEnv {
  MODEL_NAME : option string;
  BACKEND : option string
}.

Record Ambient := mkAmbient {
  (** [new Date().toISOString()] *)
  now : string;
  (** [crypto.randomUUID()] *)
  randomUUID : string
}.

Module ScoreResponse.
Record t := mk {
  case_id : string;
  risk_score : Z;
  verdict : Verdict;
  confidence : number;
  rationale : string;
  signals : list string;
  model : string;
  backend : string;
  timestamp : string
}.
End ScoreResponse.

Module Analytics.
Record t := mk {
  total_feedback : Z;
  override_rate : number;
  (** [{ reason, count }] pairs *)
  top_reasons : list (string * Z)
}.
End Analytics.

Inductive Body :=
| NoBody
| HealthBody
| ErrorBody (error : string)
| ScoreBody (r : ScoreResponse.t)
| OkBody
| AnalyticsBody (a : Analytics.t)
(** a 200 whose content hangs on a coercion of a field that does not have its
    declared type; such content is not modelled *)
| UntypedBody
(** a summary whose total and override rate are as computed, and whose
    top_reasons hang on keys that are no plain strings and are not modelled *)
| AnalyticsUntypedBody (total_feedback : Z) (override_rate : number).

Record Response := mkResponse {
  status : Z;
  body : Body
}.

(** [json(data, origin, status = 200)] *)
Definition json_response (data : Body) (st : Z) : Response :=
  {| status := st; body := data |}.

Record Store := mkStore {
  feedback : list json
}.

(** [globalThis[STORE_KEY]]: [None] until the first [getStore]. *)
Definition Global := option Store.

Definition getStore (g : Global) : Store * Global :=
  match g with
  | Some s => (s, g)
  | None => let s := {| feedback := [] |} in (s, Some s)
  end.

(** The sequence of records the process holds. *)
Definition records (g : Global) : list json :=
  match g with
  | Some s => feedback s
  | None => []
  end.

(** [await request.json()] *)
Definition request_json (request : Request) : result json :=
  match payload request with
  | Malformed => Raise SyntaxError
  | Parsed j => Ok j
  end.

(** *** The declared type of a case, read off a JSON value *)

(** A field declared [string | undefined]; [null] serves every use the code
    makes of it ([??], [&&]) as [undefined] does. *)
Definition optional_string (v : option json) : option (option string) :=
  match v with
  | None | Some JNull => Some None
  | Some (JStr s) => Some (Some s)
  | Some _ => None
  end.

Definition optional_number (v : option json) : option (option number) :=
  match v with
  | None | Some JNull => Some None
  | Some (JNum x) => Some (Some x)
  | Some _ => None
  end.

Definition required_string (v : option json) : option string :=
  match v with
  | Some (JStr s) => Some s
  | _ => None
  end.

Definition as_case (c : json) : option Case.t :=
  match optional_string (get "id" c), required_string (get "type" c),
        required_string (get "summary" c), optional_number (get "amount" c),
        optional_string (get "merchant" c), optional_string (get "user_context" c)
  with
  | Some i, Some t, Some s, Some a, Some m, Some u =>
      Some (Case.mk i t s a m u)
  | _, _, _, _, _, _ => None
  end.

(** Lines 156-169. *)
Definition score_response (env : Env) (amb : Ambient) (c : Case.t)
  : ScoreResponse.t :=
  let case_id := Case.id c ?? randomUUID amb in
  let r := scoreCase c in
  {| ScoreResponse.case_id := case_id;
     ScoreResponse.risk_score := score r;
     ScoreResponse.verdict := verdict r;
     ScoreResponse.confidence := confidence r;
     ScoreResponse.rationale := "Heuristic risk evaluation for demo purposes.";
     ScoreResponse.signals := signals r;
     ScoreResponse.model := MODEL_NAME env ?? "heuristic-mvp";
     ScoreResponse.backend := BACKEND env ?? "local";
     ScoreResponse.timestamp := now amb |}.

(** A field that is absent, or can be made a primitive. *)
Definition coercible_field (k : string) (c : json) : bool :=
  match get k c with
  | Some v => coercible v
  | None => true
  end.

(** [scoreCase] converts the summary, a merchant and a user context that are
    there, and an amount that is truthy; a value that cannot be made a
    primitive throws a TypeError (only objects and arrays can fail, and they
    are truthy). *)
Definition scoring_throws (c : json) : bool :=
  negb (coercible_field "summary" c && coercible_field "merchant" c
        && coercible_field "user_context" c && coercible_field "amount" c).

(** Lines 156-169 on the case of the body. *)
Definition score_body (env : Env) (amb : Ambient) (c : option json)
  : result Body :=
  match c with
  | None | Some JNull => Raise TypeError
  | Some j =>
      if scoring_throws j then Raise TypeError
      else
        Ok (match as_case j with
            | Some cs => ScoreBody (score_response env amb cs)
            | None => UntypedBody
            end)
  end.

(** [!a || !b], with [b] evaluated only when [a] is truthy. *)
Definition not_or_else (a : option json) (b : result bool) : result bool :=
  if negb (truthy a) then Ok true else b.

(** The [/score] branch, lines 150-171. *)
Definition score_route (env : Env) (amb : Ambient) (request : Request)
  : result Response :=
  body <- request_json request ;;
  invalid <-
    not_or_else (opt_member "summary" (opt_member "case" (Some body)))
      (c <- member "case" (Some body) ;;
       t <- member "type" c ;;
       Ok (negb (truthy t))) ;;
  if invalid then Ok (json_response (ErrorBody "Missing required fields") 400)
  else
    c <- member "case" (Some body) ;;
    data <- score_body env amb c ;;
    Ok (json_response data 200).

(** [{ ...body, received_at }]; only an object gets this far. *)
Definition own_props (j : json) : props :=
  match j with
  | JObj ps => ps
  | _ => []
  end.

Definition stored_feedback (amb : Ambient) (body : json) : json :=
  JObj (set_prop "received_at" (JStr (now amb)) (own_props body)).

(** [store.feedback.push(x)] on the one shared store object. *)
Definition push (x : json) (s : Store) : Global :=
  Some {| feedback := (feedback s ++ [x])%list |}.

(** The guard of line 178. *)
Definition feedback_invalid (body : json) : result bool :=
  case_id <- member "case_id" (Some body) ;;
  not_or_else case_id
    (reviewer <- member "reviewer" (Some body) ;;
     not_or_else reviewer
       (final_verdict <- member "final_verdict" (Some body) ;;
        Ok (negb (truthy final_verdict)))).

(** The [/feedback] branch, lines 176-188. *)
Definition feedback_route (amb : Ambient) (request : Request) (g : Global)
  : result Response * Global :=
  match request_json request with
  | Raise f => (Raise f, g)
  | Ok body =>
      match feedback_invalid body with
      | Raise f => (Raise f, g)
      | Ok true => (Ok (json_response (ErrorBody "Invalid feedback payload") 400), g)
      | Ok false =>
          let (store, g1) := getStore g in
          (Ok (json_response OkBody 200), push (stored_feedback amb body) store)
      end
  end.

(** ** Analytics *)

(** *** The platform functions the [/analytics] branch calls *)

(** [Array.prototype.sort(cmp)]: stable; [cmp a b > 0] puts [b] first. *)
Section Sort.
Context {A : Type} (cmp : A -> A -> Z).

Fixpoint insert (x : A) (l : list A) : list A :=
  match l with
  | [] => [x]
  | y :: l' => if 0 <? cmp x y then y :: insert x l' else x :: l
  end.

Definition sort (l : list A) : list A := fold_right insert [] l.
End Sort.

Module JsObject.

(** The names every plain object inherits from [Object.prototype]. *)
Definition inherited_names : list string :=
  [ "constructor"; "hasOwnProperty"; "isPrototypeOf"; "propertyIsEnumerable";
    "toLocaleString"; "toString"; "valueOf"; "__proto__";
    "__defineGetter__"; "__defineSetter__";
    "__lookupGetter__"; "__lookupSetter__" ].

Definition inherited (k : string) : bool :=
  existsb (String.eqb k) inherited_names.

Definition digit (c : ascii) : option N :=
  let n := N_of_ascii c in
  if (48 <=? n)%N && (n <=? 57)%N then Some (n - 48)%N else None.

Fixpoint digits (acc : N) (s : string) : option N :=
  match s with
  | EmptyString => Some acc
  | String c s' =>
      match digit c with
      | Some d => digits (10 * acc + d)%N s'
      | None => None
      end
  end.

(** The array index a property key denotes, if any: a canonical decimal
    numeral (no sign, no leading zero) of at most [2^32 - 2]. *)
Definition array_index (k : string) : option N :=
  match k with
  | EmptyString => None
  | String c rest =>
      if Ascii.eqb c "0" && negb (String.eqb rest "") then None
      else
        match digits 0 k with
        | Some n => if (n <=? 4294967294)%N then Some n else None
        | None => None
        end
  end.

Definition is_index (k : string) : bool :=
  match array_index k with Some _ => true | None => false end.

Definition index_of (k : string) : Z :=
  match array_index k with Some n => Z.of_N n | None => 0 end.

(** [Object.entries(o)] for an object with own properties [own] (in creation
    order): array indices first, ascending, then the other keys in creation
    order. *)
Definition entries {V} (own : list (string * V)) : list (string * V) :=
  (sort (fun a b => index_of (fst a) - index_of (fst b))
     (filter (fun p => is_index (fst p)) own)
   ++ filter (fun p => negb (is_index (fst p))) own)%list.

End JsObject.

(** The local [reasons: Record<string, number>]: own properties with their
    counts, in creation order. *)
Abbreviation Reasons := (list (string * Z)).

Fixpoint own_count (r : string) (reasons : Reasons) : option Z :=
  match reasons with
  | [] => None
  | (k, n) :: rest => if String.eqb r k then Some n else own_count r rest
  end.

Fixpoint set_count (r : string) (n : Z) (reasons : Reasons) : Reasons :=
  match reasons with
  | [] => [(r, n)]
  | (k, m) :: rest =>
      if String.eqb r k then (k, n) :: rest else (k, m) :: set_count r n rest
  end.

(** [reasons[r] = (reasons[r] ?? 0) + 1] for a string [r]. When [r] is not an
    own property but names something [Object.prototype] provides, the read
    yields that inherited function or object instead of a count; what follows
    is no tally and is not modelled ([None]). *)
Definition count_reason (r : string) (reasons : Reasons) : option Reasons :=
  match own_count r reasons with
  | Some n => Some (set_count r (n + 1) reasons)
  | None =>
      if JsObject.inherited r then None
      else Some (set_count r (0 + 1) reasons)
  end.

(** What [for (const r of f.reason_codes ?? [])] iterates over. *)
Inductive iteration :=
| NotIterable
| Items (rs : list json)
(** a string: its characters, one key each; which keys is not modelled *)
| Characters.

Definition reason_codes_of (f : json) : iteration :=
  match get "reason_codes" f with
  | None | Some JNull => Items []
  | Some (JArr rs) => Items rs
  | Some (JStr _) => Characters
  | Some (JBool _) | Some (JNum _) | Some (JObj _) => NotIterable
  end.

(** The inner loop. An item that is no string is made a property key: a
    TypeError when it cannot be made a primitive, else a key that is not
    modelled ([None], as from then on the tally). *)
Fixpoint count_reasons (rs : list json) (reasons : option Reasons)
  : result (option Reasons) :=
  match rs with
  | [] => Ok reasons
  | JStr r :: rest =>
      count_reasons rest
        (match reasons with
         | Some rm => count_reason r rm
         | None => None
         end)
  | j :: rest =>
      if coercible j then count_reasons rest None else Raise TypeError
  end.

(** The outer loop, lines 198-202: a TypeError at the first record whose
    [reason_codes] cannot be iterated or holds an item that cannot be made a
    key. *)
Fixpoint tally (fb : list json) (reasons : option Reasons)
  : result (option Reasons) :=
  match fb with
  | [] => Ok reasons
  | f :: rest =>
      match reason_codes_of f with
      | NotIterable => Raise TypeError
      | Characters => tally rest None
      | Items rs =>
          match count_reasons rs reasons with
          | Ok reasons' => tally rest reasons'
          | Raise e => Raise e
          end
      end
  end.

(** [f.action === "Override"] *)
Definition is_override (f : json) : bool :=
  match get "action" f with
  | Some (JStr a) => String.eqb a "Override"
  | _ => false
  end.

(** *** [Number(x.toFixed(2))] *)

(** The string [x.toFixed(2)] returns: the decimal numeral of [n/100] with a
    sign, or, for a value that is not finite or not below [10^21], what
    [String(x)] returns. *)
Inductive fixed2 :=
| Digits (negative : bool) (n : Z)
| Plain (x : number).

(** The integer [n] for which [n/100 - m * 2^e] is closest to zero, the
    larger one when two are equally close. *)
Definition nearest_hundredth (m e : Z) : Z :=
  if 0 <=? e then 100 * m * 2 ^ e
  else (200 * m + 2 ^ (- e)) / 2 ^ (1 - e).

Definition at_least_1e21 (m e : Z) : bool :=
  if 0 <=? e then 10 ^ 21 <=? m * 2 ^ e
  else 10 ^ 21 * 2 ^ (- e) <=? m.

Definition toFixed2 (x : number) : fixed2 :=
  match x with
  | S754_nan | S754_infinity _ => Plain x
  | S754_zero _ => Digits false 0
  | S754_finite s m e =>
      if at_least_1e21 (Zpos m) e then Plain x
      else Digits s (nearest_hundredth (Zpos m) e)
  end.

(** [Number(s)] for a string that [toFixed(2)] returned. *)
Definition Number_of (s : fixed2) : number :=
  match s with
  | Plain x => x
  | Digits negative n =>
      let v := JsNumber.hundredths n in
      if negative then SFopp v else v
  end.

(** Lines 194-195 and 207. *)
Definition overrides (fb : list json) : Z :=
  Z.of_nat (List.length (filter is_override fb)).

Definition override_rate_of (fb : list json) : number :=
  let total := Z.of_nat (List.length fb) in
  if total =? 0 then JsNumber.of_Z 0
  else Number_of (toFixed2 (JsNumber.div (JsNumber.of_Z (overrides fb))
                                         (JsNumber.of_Z total))).

(** Lines 208-210. *)
Definition top_reasons_of (reasons : Reasons) : list (string * Z) :=
  sort (fun a b => snd b - snd a) (JsObject.entries reasons).

(** The [/analytics] branch, lines 193-213. *)
Definition analytics_route (g : Global) : result Response * Global :=
  let (store, g1) := getStore g in
  let fb := feedback store in
  match tally fb (Some []) with
  | Raise f => (Raise f, g1)
  | Ok None =>
      (Ok (json_response
             (AnalyticsUntypedBody (Z.of_nat (List.length fb))
                (override_rate_of fb))
             200),
       g1)
  | Ok (Some reasons) =>
      (Ok (json_response
             (AnalyticsBody
                {| Analytics.total_feedback := Z.of_nat (List.length fb);
                   Analytics.override_rate := override_rate_of fb;
                   Analytics.top_reasons := top_reasons_of reasons |})
             200),
       g1)
  end.

(** ** The handler *)

Inductive Outcome :=
| Returns (r : Response)
| Throws (f : fault).

Definition outcome_of (r : result Response) : Outcome :=
  match r with
  | Ok resp => Returns resp
  | Raise f => Throws f
  end.

Definition fetch (env : Env) (amb : Ambient) (request : Request) (g : Global)
  : Outcome * Global :=
  if String.eqb (method request) "OPTIONS" then
    (Returns {| status := 204; body := NoBody |}, g)
  else if String.eqb (method request) "GET"
          && String.eqb (pathname request) "/" then
    (Returns (json_response HealthBody 200), g)
  else if String.eqb (method request) "POST"
          && String.eqb (pathname request) "/score" then
    (outcome_of (score_route env amb request), g)
  else if String.eqb (method request) "POST"
          && String.eqb (pathname request) "/feedback" then
    let (r, g') := feedback_route amb request g in (outcome_of r, g')
  else if String.eqb (method request) "GET"
          && String.eqb (pathname request) "/analytics" then
    let (r, g') := analytics_route g in (outcome_of r, g')
  else
    (Returns (json_response (ErrorBody "Not found") 404), g).

(** ** Notions of the specification *)

(** The rules in their evaluation order: the signal's name and its trigger. *)
Definition rules : list (string * (Case.t -> bool)) :=
  [ ("high_amount", high_amount);
    ("urgency_language", fun c => urgency_language (case_text c));
    ("high_risk_payment", fun c => high_risk_payment (case_text c));
    ("social_engineering_phrase",
      fun c => social_engineering_phrase (case_text c)) ].

Definition triggered (c : Case.t) : list string :=
  map fst (filter (fun rule => snd rule c) rules).

Definition trigger_phrases : list string :=
  [ "urgent"; "immediately"; "gift card"; "wire"; "crypto"; "not a scam";
    "trust me" ].

(** Amount absent, or at most 500. *)
Definition amount_at_most_500 (c : Case.t) : Prop :=
  match Case.amount c with
  | None => True
  | Some a => JsNumber.le a (JsNumber.of_Z 500) = true
  end.

Definition no_trigger_phrase (c : Case.t) : Prop :=
  forall p, In p trigger_phrases -> JsString.includes (case_text c) p = false.

(** The demo queue's first two cases. *)
Definition wire_case : Case.t :=
  Case.mk None "transaction" "Urgent wire transfer requested by new vendor"
    (Some (JsNumber.of_Z 1200)) None None.

Definition card_case : Case.t :=
  Case.mk None "transaction" "Low-dollar card purchase at known merchant"
    (Some (JsNumber.of_Z 12)) None None.

(** A case on which all four rules fire. *)
Definition all_rules_case : Case.t :=
  Case.mk (Some "CASE-X") "transaction"
    "URGENT: wire it now, this is not a scam" (Some (JsNumber.of_Z 501))
    None None.

(** *** Requests *)

Definition post (path : string) (p : parsed) : Request :=
  {| method := "POST"; pathname := path; payload := p |}.

Definition get_analytics (p : parsed) : Request :=
  {| method := "GET"; pathname := "/analytics"; payload := p |}.

Definition demo_env : Env := {| MODEL_NAME := None; BACKEND := None |}.

Definition demo_ambient : Ambient :=
  {| now := "2026-01-15T09:30:00.000Z";
     randomUUID := "3f0c2f0e-8d0a-4c59-9b1e-5a7d7c1f2a10" |}.

(** *** Feedback validation as the specification words it *)

Definition present (v : option json) : bool :=
  match v with
  | None => false
  | Some _ => true
  end.

Definition one_of (allowed : list string) (v : option json) : bool :=
  match v with
  | Some (JStr s) => existsb (String.eqb s) allowed
  | _ => false
  end.

(** [case_id], [reviewer] and [final_verdict] present, [action] one of
    Approve and Override, [final_verdict] one of Approve, Review, Reject. *)
Definition spec_feedback_valid (body : json) : bool :=
  present (get "case_id" body) && present (get "reviewer" body)
  && present (get "final_verdict" body)
  && one_of ["Approve"; "Override"] (get "action" body)
  && one_of ["Approve"; "Review"; "Reject"] (get "final_verdict" body).

(** What the guard of line 178 asks for. *)
Definition required_fields_truthy (body : json) : bool :=
  truthy (get "case_id" body) && truthy (get "reviewer" body)
  && truthy (get "final_verdict" body).

(** Feedback without an [action]. *)
Definition feedback_without_action : json :=
  JObj [ ("case_id", JStr "CASE-1001"); ("reviewer", JStr "Analyst Demo");
         ("final_verdict", JStr "Review") ].

(** A body whose required fields are there, but empty. *)
Definition empty_fields_body : json :=
  JObj [ ("case", JObj [ ("type", JStr "transaction"); ("summary", JStr "") ]);
         ("case_id", JStr ""); ("reviewer", JStr "Analyst Demo");
         ("final_verdict", JStr "Approve"); ("action", JStr "Approve") ].

(** The one response that acknowledges a stored record. *)
Definition accepted : Outcome := Returns (json_response OkBody 200).

(** *** Reason codes at their declared type, [string[]] or absent *)

Fixpoint strings_of (rs : list json) : option (list string) :=
  match rs with
  | [] => Some []
  | JStr r :: rest => option_map (cons r) (strings_of rest)
  | _ :: _ => None
  end.

Definition declared_reason_codes (f : json) : option (list string) :=
  match get "reason_codes" f with
  | None | Some JNull => Some []
  | Some (JArr rs) => strings_of rs
  | Some _ => None
  end.

(** Every reason code of the store, record after record. *)
Fixpoint reason_strings (fb : list json) : option (list string) :=
  match fb with
  | [] => Some []
  | f :: rest =>
      match declared_reason_codes f, reason_strings rest with
      | Some here, Some later => Some (here ++ later)%list
      | _, _ => None
      end
  end.

Definition occurrences (r : string) (rs : list string) : Z :=
  Z.of_nat (count_occ string_dec rs r).

(** [a] occurs in [rs] before [b] does. *)
Definition first_before (rs : list string) (a b : string) : Prop :=
  exists l1 l2, rs = (l1 ++ a :: l2)%list /\ ~ In a l1 /\ ~ In b l1 /\ a <> b.

(** The order in which a plain object enumerates two of its keys, the
    object having received its keys in the order of [rs]. *)
Definition enumerated_before (rs : list string) (a b : string) : Prop :=
  match JsObject.array_index a, JsObject.array_index b with
  | Some i, Some j => (i < j)%N
  | Some _, None => True
  | None, Some _ => False
  | None, None => first_before rs a b
  end.

(** [top] ranks the reasons [rs]: one pair per distinct reason, with its
    number of occurrences, by descending count, ties in the order [before]. *)
Definition ranked (before : string -> string -> Prop) (rs : list string)
  (top : list (string * Z)) : Prop :=
  NoDup (map fst top)
  /\ (forall r n, In (r, n) top <-> In r rs /\ n = occurrences r rs)
  /\ StronglySorted (fun a b => snd a >= snd b) top
  /\ StronglySorted (fun a b => snd a = snd b -> before (fst a) (fst b)) top.

(** Two reasons, the second of which reads as an array index. *)
Definition indexed_reason_store : Global :=
  Some {| feedback :=
            [ JObj [ ("case_id", JStr "CASE-1003"); ("reviewer", JStr "Analyst Demo");
                     ("action", JStr "Override"); ("final_verdict", JStr "Review");
                     ("reason_codes", JArr [JStr "b"; JStr "1"]) ] ] |}.

(** The tally on strings, none of which names an inherited property. *)
Definition bump (r : string) (reasons : Reasons) : Reasons :=
  match own_count r reasons with
  | Some n => set_count r (n + 1) reasons
  | None => set_count r 1 reasons
  end.

Definition count_all (rs : list string) (reasons : Reasons) : Reasons :=
  fold_left (fun acc r => bump r acc) rs reasons.

(** Ascending in [g], and in the order [R] where [g] ties. *)
Definition lex {A} (g : A -> Z) (R : A -> A -> Prop) (a b : A) : Prop :=
  g a < g b \/ (g a = g b /\ R a b).

(** The number of characters of a numeral. *)
Definition len (s : string) : N := N.of_nat (String.length s).

(** Where the quotient [(q * d + r) / d] lies between [q] and [q + 1]. *)
Definition located (l : location) (r d : Z) : Prop :=
  match l with
  | loc_Exact => r = 0
  | loc_Inexact Lt => 0 < r /\ 2 * r < d
  | loc_Inexact Eq => 2 * r = d
  | loc_Inexact Gt => d < 2 * r
  end.

(** Three reviews, one of them an override. *)
Definition three_reviews : list json :=
  [ JObj [ ("case_id", JStr "CASE-1001"); ("reviewer", JStr "Analyst Demo");
           ("action", JStr "Override"); ("final_verdict", JStr "Review");
           ("reason_codes", JArr [JStr "false_positive"]) ];
    JObj [ ("case_id", JStr "CASE-1002"); ("reviewer", JStr "Analyst Demo");
           ("action", JStr "Approve"); ("final_verdict", JStr "Approve");
           ("reason_codes", JArr []) ];
    JObj [ ("case_id", JStr "CASE-1003"); ("reviewer", JStr "Analyst Demo");
           ("action", JStr "Approve"); ("final_verdict", JStr "Reject") ] ].

(** The summary of an empty store. *)
Definition empty_summary : Analytics.t :=
  {| Analytics.total_feedback := 0;
     Analytics.override_rate := JsNumber.of_Z 0;
     Analytics.top_reasons := [] |}.

(** *** Weights of the signals *)

(** What each rule adds to the score, by the name of its signal. *)
Definition weight (signal : string) : Z :=
  if String.eqb signal "high_amount" then 25
  else if String.eqb signal "urgency_language" then 15
  else if String.eqb signal "high_risk_payment" then 25
  else if String.eqb signal "social_engineering_phrase" then 15
  else 0.

Definition total_weight (fired : list string) : Z :=
  fold_right (fun s acc => weight s + acc) 0 fired.

(** Each trigger phrase with the signal of its rule. *)
Definition phrase_signals : list (string * string) :=
  [ ("urgent", "urgency_language"); ("immediately", "urgency_language");
    ("gift card", "high_risk_payment"); ("wire", "high_risk_payment");
    ("crypto", "high_risk_payment");
    ("not a scam", "social_engineering_phrase");
    ("trust me", "social_engineering_phrase") ].

(** Two cases that differ in letter case, id and type only. *)
Definition shouting_case : Case.t :=
  Case.mk (Some "A-1") "account" "URGENT Wire Transfer"
    (Some (JsNumber.of_Z 900)) (Some "ACME") None.

Definition whispering_case : Case.t :=
  Case.mk None "transaction" "urgent wire transfer"
    (Some (JsNumber.of_Z 900)) (Some "acme") (Some "").

(** *** Sequences of requests *)

Definition is_accepted (out : Outcome) : bool :=
  match out with
  | Returns {| status := 200; body := OkBody |} => true
  | _ => false
  end.

(** The handler serving one request after the other, each at its own time. *)
Fixpoint run (env : Env) (steps : list (Ambient * Request)) (g : Global)
  : list Outcome * Global :=
  match steps with
  | [] => ([], g)
  | (amb, request) :: rest =>
      let (out, g1) := fetch env amb request g in
      let (outs, g2) := run env rest g1 in
      (out :: outs, g2)
  end.

(** The five routes the handler knows. *)
Definition known_route (request : Request) : bool :=
  String.eqb (method request) "OPTIONS"
  || String.eqb (method request) "GET" && String.eqb (pathname request) "/"
  || String.eqb (method request) "POST" && String.eqb (pathname request) "/score"
  || String.eqb (method request) "POST"
     && String.eqb (pathname request) "/feedback"
  || String.eqb (method request) "GET"
     && String.eqb (pathname request) "/analytics".

Definition not_iterable (f : json) : bool :=
  match reason_codes_of f with
  | NotIterable => true
  | Items _ | Characters => false
  end.

(** A record on which the tally throws: its [reason_codes] cannot be
    iterated, or hold an item that cannot be made a property key. *)
Definition unreadable (f : json) : bool :=
  match reason_codes_of f with
  | NotIterable => true
  | Items rs => negb (forallb coercible rs)
  | Characters => false
  end.

(** The [action] strings of the records, and how many records have the
    action Override. *)
Definition actions (fb : list json) : list string :=
  flat_map (fun f => match get "action" f with
                     | Some (JStr a) => [a]
                     | _ => []
                     end) fb.

Definition override_records (fb : list json) : Z :=
  occurrences "Override" (actions fb).

(** The total and the override rate a summary carries. *)
Definition summary_of (b : Body) : option (Z * number) :=
  match b with
  | AnalyticsBody a => Some (Analytics.total_feedback a, Analytics.override_rate a)
  | AnalyticsUntypedBody total rate => Some (total, rate)
  | _ => None
  end.

(** Two reviews whose reasons tie: missing_context and false_positive occur
    twice each, missing_context first. *)
Definition tied_reviews : list json :=
  [ JObj [ ("case_id", JStr "CASE-1001"); ("reviewer", JStr "Analyst Demo");
           ("action", JStr "Override"); ("final_verdict", JStr "Review");
           ("reason_codes", JArr [JStr "missing_context"; JStr "false_positive"]) ];
    JObj [ ("case_id", JStr "CASE-1003"); ("reviewer", JStr "Analyst Demo");
           ("action", JStr "Override"); ("final_verdict", JStr "Review");
           ("reason_codes",
            JArr [JStr "false_positive"; JStr "edge_case";
                  JStr "missing_context"]) ] ].

(** A case whose summary is an object with a [toString] of its own. *)
Definition unprintable_summary_body : json :=
  JObj [ ("case",
          JObj [ ("summary", JObj [ ("toString", JNum (JsNumber.of_Z 1)) ]);
                 ("type", JStr "transaction") ]) ].

(** Feedback with a reason that cannot be made a key. *)
Definition unprintable_reason_feedback : json :=
  JObj [ ("case_id", JStr "CASE-1001"); ("reviewer", JStr "Analyst Demo");
         ("action", JStr "Override"); ("final_verdict", JStr "Review");
         ("reason_codes",
          JArr [ JObj [ ("toString", JNum (JsNumber.of_Z 1)) ] ]) ].

(** Feedback whose reason codes are a number. *)
Definition numeric_reasons_feedback : json :=
  JObj [ ("case_id", JStr "CASE-1001"); ("reviewer", JStr "Analyst Demo");
         ("action", JStr "Override"); ("final_verdict", JStr "Review");
         ("reason_codes", JNum (JsNumber.of_Z 7)) ].

(** Feedback that brings its own [received_at]. *)
Definition backdated_feedback : json :=
  JObj [ ("received_at", JStr "1999-12-31T23:59:59.000Z");
         ("case_id", JStr "CASE-1002"); ("reviewer", JStr "Analyst Demo");
         ("action", JStr "Override"); ("final_verdict", JStr "Reject") ].

Definition sum_counts (top : list (string * Z)) : Z :=
  fold_right (fun p acc => snd p + acc) 0 top.

(** ** The review screen, the React component [App] *)

Module App.

Inductive CaseType := transaction | content | account.

Definition type_name (t : CaseType) : string :=
  match t with
  | transaction => "transaction"
  | content => "content"
  | account => "account"
  end.

(** [CaseItem] *)
Record CaseItem := mkCaseItem {
  id : string;
  type : CaseType;
  summary : string;
  amount : option number
}.

Inductive Action := ApproveAction | OverrideAction.

Definition action_name (a : Action) : string :=
  match a with
  | ApproveAction => "Approve"
  | OverrideAction => "Override"
  end.

Definition verdict_name (v : Verdict) : string :=
  match v with
  | Approve => "Approve"
  | Review => "Review"
  | Reject => "Reject"
  end.

(** A number through [JSON.stringify] and back through [request.json()]:
    [NaN] and the infinities are written as [null], [-0] as [0]. *)
Definition number_through_json (x : number) : json :=
  match x with
  | S754_nan | S754_infinity _ => JNull
  | S754_zero _ => JNum (S754_zero false)
  | S754_finite _ _ _ => JNum x
  end.

(** The body [scoreSelected] posts; an [amount] that is [undefined] is left
    out of the text. *)
Definition score_payload (selected : CaseItem) : json :=
  JObj
    [ ("case",
       JObj ([ ("id", JStr (id selected));
               ("type", JStr (type_name (type selected)));
               ("summary", JStr (summary selected)) ]
             ++ match amount selected with
                | Some a => [ ("amount", number_through_json a) ]
                | None => []
                end)%list) ].

(** The case the worker reads out of that body. *)
Definition case_of_item (selected : CaseItem) : Case.t :=
  Case.mk (Some (id selected)) (type_name (type selected)) (summary selected)
    (match amount selected with
     | Some (S754_zero _) => Some (S754_zero false)
     | Some (S754_finite s m e) => Some (S754_finite s m e)
     | Some S754_nan | Some (S754_infinity _) | None => None
     end)
    None None.

(** The body [submitFeedback] posts for the score [result] on screen. *)
Definition feedback_payload (result : ScoreResponse.t) (action : Action)
  (reasons : list string) (notes : string) : json :=
  JObj
    [ ("case_id", JStr (ScoreResponse.case_id result));
      ("reviewer", JStr "Analyst Demo");
      ("action", JStr (action_name action));
      ("final_verdict",
       JStr (match action with
             | OverrideAction => "Review"
             | ApproveAction => verdict_name (ScoreResponse.verdict result)
             end));
      ("reason_codes", JArr (map JStr reasons));
      ("notes", JStr notes);
      ("original",
       JObj [ ("verdict", JStr (verdict_name (ScoreResponse.verdict result)));
              ("risk_score", JNum (JsNumber.of_Z (ScoreResponse.risk_score result)));
              ("confidence", number_through_json (ScoreResponse.confidence result));
              ("model", JStr (ScoreResponse.model result));
              ("backend", JStr (ScoreResponse.backend result)) ]) ].

(** The checkbox of reason [r]: [checked ? [...prev, r] : prev.filter(x => x !== r)]. *)
Definition toggle_reason (checked : bool) (r : string) (prev : list string)
  : list string :=
  if checked then (prev ++ [r])%list
  else filter (fun x => negb (String.eqb x r)) prev.

(** The reason codes the screen offers. *)
Definition offered_reasons : list string :=
  [ "false_positive"; "missing_context"; "edge_case" ].

(** [Math.round(x)] for a finite [x], as an integer: the nearest integer,
    the larger one on a tie. *)
Definition Math_round (x : number) : option Z :=
  match x with
  | S754_nan | S754_infinity _ => None
  | S754_zero _ => Some 0
  | S754_finite s m e =>
      let sm := if s then Zneg m else Zpos m in
      Some (if 0 <=? e then sm * 2 ^ e
            else (2 * sm + 2 ^ (- e)) / 2 ^ (1 - e))
  end.

(** [Math.round(x * 100)], the percentage the screen shows for a confidence
    or an override rate. *)
Definition percent (x : number) : option Z :=
  Math_round (SFmul JsNumber.prec JsNumber.emax x (JsNumber.of_Z 100)).

End App.

(** ** Scoring *)

Lemma when_fire_fst b w name acc :
  fst (when b (fire w name) acc) = fst acc + (if b then w else 0).
Proof. destruct b; simpl; lia. Qed.

Lemma when_fire_snd b w name acc :
  snd (when b (fire w name) acc) = (snd acc ++ if b then [name] else [])%list.
Proof. destruct b; simpl; auto using app_nil_r. Qed.

(** The score before clamping is the baseline plus the fired weights. *)
Lemma score_sum (c : Case.t) :
  score (scoreCase c) =
  clamp (20 + (if high_amount c then 25 else 0)
            + (if urgency_language (case_text c) then 15 else 0)
            + (if high_risk_payment (case_text c) then 25 else 0)
            + (if social_engineering_phrase (case_text c) then 15 else 0)).
Proof.
  unfold scoreCase; cbn [score]. now rewrite !when_fire_fst.
Qed.

Lemma signals_triggered (c : Case.t) : signals (scoreCase c) = triggered c.
Proof.
  unfold scoreCase, triggered, rules; cbn [signals filter snd fst map].
  rewrite !when_fire_snd. cbn [snd app].
  destruct (high_amount c), (urgency_language (case_text c)),
    (high_risk_payment (case_text c)),
    (social_engineering_phrase (case_text c)); reflexivity.
Qed.

(** [a <= b] rules out [b < a], also at the infinities. *)
Lemma SFleb_not_ltb (a b : spec_float) : SFleb a b = true -> SFltb b a = false.
Proof.
  unfold SFleb, SFltb, SFcompare.
  destruct a as [sa|sa| |sa ma ea], b as [sb|sb| |sb mb eb];
    try destruct sa; try destruct sb; try reflexivity; try discriminate.
  - change (Pos.compare_cont Eq mb ma) with (Pos.compare mb ma).
    change (Pos.compare_cont Eq ma mb) with (Pos.compare ma mb).
    rewrite (Z.compare_antisym ea eb), (Pos.compare_antisym ma mb).
    destruct (ea ?= eb); cbn; try reflexivity; try discriminate;
      destruct (Pos.compare ma mb); cbn; try reflexivity; discriminate.
  - change (Pos.compare_cont Eq mb ma) with (Pos.compare mb ma).
    change (Pos.compare_cont Eq ma mb) with (Pos.compare ma mb).
    rewrite (Z.compare_antisym ea eb), (Pos.compare_antisym ma mb).
    destruct (ea ?= eb); cbn; try reflexivity; try discriminate;
      destruct (Pos.compare ma mb); cbn; try reflexivity; discriminate.
Qed.

Lemma amount_at_most_500_quiet (c : Case.t) :
  amount_at_most_500 c -> high_amount c = false.
Proof.
  unfold amount_at_most_500, high_amount, JsNumber.le, JsNumber.gt.
  destruct (Case.amount c) as [a|]; [|reflexivity].
  intros H. rewrite (SFleb_not_ltb _ _ H). apply andb_false_r.
Qed.

(** C4: the demo's wire-transfer case scores 85, Reject, confidence 0.85,
    with signals high_amount, urgency_language, high_risk_payment in that
    order; and for every case the signals are the triggered rules' names in
    the fixed evaluation order. *)
Theorem C4_wire_case_and_signal_order :
  scoreCase wire_case =
    {| score := 85; verdict := Reject; confidence := JsNumber.hundredths 85;
       signals := ["high_amount"; "urgency_language"; "high_risk_payment"] |}
  /\ map fst rules =
       ["high_amount"; "urgency_language"; "high_risk_payment";
        "social_engineering_phrase"]
  /\ forall c : Case.t,
       signals (scoreCase c) = map fst (filter (fun rule => snd rule c) rules).
Proof.
  split; [vm_compute; reflexivity|]. split; [reflexivity|].
  exact signals_triggered.
Qed.

(** C5: a case whose amount is absent or at most 500 and whose lower-cased
    text contains no trigger phrase scores 20, Approve, with no signals. *)
Theorem C5_quiet_case (c : Case.t) :
  amount_at_most_500 c ->
  no_trigger_phrase c ->
  score (scoreCase c) = 20 /\ verdict (scoreCase c) = Approve
  /\ signals (scoreCase c) = [].
Proof.
  intros Hamount Hquiet.
  assert (Hp : forall p, In p trigger_phrases ->
                 JsString.includes (case_text c) p = false) by exact Hquiet.
  assert (Hu : urgency_language (case_text c) = false).
  { unfold urgency_language. rewrite !Hp; cbn; auto 10. }
  assert (Hh : high_risk_payment (case_text c) = false).
  { unfold high_risk_payment. rewrite !Hp; cbn; auto 10. }
  assert (Hs : social_engineering_phrase (case_text c) = false).
  { unfold social_engineering_phrase. rewrite !Hp; cbn; auto 10. }
  pose proof (amount_at_most_500_quiet c Hamount) as Ha.
  assert (Hscore : score (scoreCase c) = 20).
  { rewrite score_sum, Ha, Hu, Hh, Hs. reflexivity. }
  split; [exact Hscore|]. split.
  - change (verdict (scoreCase c)) with (verdictOf (score (scoreCase c))).
    now rewrite Hscore.
  - rewrite signals_triggered. unfold triggered, rules.
    cbn [filter snd]. now rewrite Ha, Hu, Hh, Hs.
Qed.

Lemma C5_quiet_case_witness :
  score (scoreCase card_case) = 20 /\ verdict (scoreCase card_case) = Approve
  /\ signals (scoreCase card_case) = [].
Proof.
  apply (C5_quiet_case card_case).
  - vm_compute. reflexivity.
  - intros p Hp. cbn in Hp.
    repeat (destruct Hp as [<-|Hp]; [vm_compute; reflexivity|]).
    destruct Hp.
Defined.

(** C6: the risk score of every case lies in [0, 100]; when all four rules
    fire the sum 105 is clamped to 100. *)
Theorem C6_score_range :
  (forall c : Case.t, 0 <= score (scoreCase c) <= 100)
  /\ triggered all_rules_case = map fst rules
  /\ score (scoreCase all_rules_case) = 100.
Proof.
  split; [|split; vm_compute; reflexivity].
  intros c. rewrite score_sum. unfold clamp. lia.
Qed.

(** C7: verdict and confidence are functions of the clamped score with exact
    thresholds: Reject from 70, Review from 40 to 69, Approve below 40;
    confidence 0.85 from 80 and up to 20, otherwise 0.65. *)
Theorem C7_thresholds :
  (forall c : Case.t,
     let r := scoreCase c in
     (verdict r = Reject <-> 70 <= score r)
     /\ (verdict r = Review <-> 40 <= score r < 70)
     /\ (verdict r = Approve <-> score r < 40)
     /\ (confidence r = JsNumber.hundredths 85 <-> 80 <= score r \/ score r <= 20)
     /\ (confidence r = JsNumber.hundredths 65 <-> 20 < score r < 80))
  /\ (forall s : Z,
        (verdictOf s = Reject <-> 70 <= s)
        /\ (verdictOf s = Review <-> 40 <= s < 70)
        /\ (verdictOf s = Approve <-> s < 40)
        /\ (confidenceOf s = JsNumber.hundredths 85 <-> 80 <= s \/ s <= 20)
        /\ (confidenceOf s = JsNumber.hundredths 65 <-> 20 < s < 80))
  /\ verdictOf 39 = Approve /\ verdictOf 40 = Review
  /\ verdictOf 69 = Review /\ verdictOf 70 = Reject
  /\ confidenceOf 20 = JsNumber.hundredths 85
  /\ confidenceOf 21 = JsNumber.hundredths 65
  /\ confidenceOf 79 = JsNumber.hundredths 65
  /\ confidenceOf 80 = JsNumber.hundredths 85.
Proof.
  assert (Hne : JsNumber.hundredths 85 <> JsNumber.hundredths 65)
    by (vm_compute; discriminate).
  assert (Hs : forall s : Z,
        (verdictOf s = Reject <-> 70 <= s)
        /\ (verdictOf s = Review <-> 40 <= s < 70)
        /\ (verdictOf s = Approve <-> s < 40)
        /\ (confidenceOf s = JsNumber.hundredths 85 <-> 80 <= s \/ s <= 20)
        /\ (confidenceOf s = JsNumber.hundredths 65 <-> 20 < s < 80)).
  { intros s. unfold verdictOf, confidenceOf.
    destruct (Z.leb_spec 70 s), (Z.leb_spec 40 s), (Z.leb_spec 80 s),
      (Z.leb_spec s 20); cbn [orb];
      repeat split; intros; try lia; try discriminate; try reflexivity;
      try congruence; exfalso; try lia; congruence. }
  split; [intros c; exact (Hs (score (scoreCase c)))|].
  split; [exact Hs|].
  repeat split; reflexivity.
Qed.

(** ** The handler's routes *)

Lemma fetch_score env amb p g :
  fetch env amb (post "/score" p) g =
  (outcome_of (score_route env amb (post "/score" p)), g).
Proof. reflexivity. Qed.

Lemma fetch_feedback env amb p g :
  fetch env amb (post "/feedback" p) g =
  (outcome_of (fst (feedback_route amb (post "/feedback" p) g)),
   snd (feedback_route amb (post "/feedback" p) g)).
Proof.
  change (fetch env amb (post "/feedback" p) g)
    with (let (r, g') := feedback_route amb (post "/feedback" p) g in
          (outcome_of r, g')).
  now destruct (feedback_route amb (post "/feedback" p) g).
Qed.

Lemma getStore_records g : feedback (fst (getStore g)) = records g.
Proof. now destruct g. Qed.

Lemma getStore_keeps g : records (snd (getStore g)) = records g.
Proof. now destruct g. Qed.

(** The guard of [/feedback] on a body that is not [null]. *)
Lemma feedback_invalid_spec body :
  body <> JNull ->
  feedback_invalid body = Ok (negb (required_fields_truthy body)).
Proof.
  intros Hnn. unfold feedback_invalid, required_fields_truthy.
  assert (Hm : forall k, member k (Some body) = Ok (get k body))
    by (intros k; destruct body; congruence || reflexivity).
  rewrite !Hm. cbn [bind]. unfold not_or_else.
  destruct (truthy (get "case_id" body)); cbn [negb andb bind];
    [|reflexivity].
  destruct (truthy (get "reviewer" body)); reflexivity.
Qed.

Lemma feedback_route_spec amb p body g :
  body <> JNull ->
  feedback_route amb (post p (Parsed body)) g =
  if required_fields_truthy body then
    (Ok (json_response OkBody 200),
     Some {| feedback := (records g ++ [stored_feedback amb body])%list |})
  else (Ok (json_response (ErrorBody "Invalid feedback payload") 400), g).
Proof.
  intros Hnn. unfold feedback_route. cbn [request_json post payload].
  rewrite (feedback_invalid_spec body Hnn).
  destruct (required_fields_truthy body); cbn [negb]; [|reflexivity].
  destruct g as [s|]; reflexivity.
Qed.

(** C1, as the code has it: on a body that is not null, the feedback
    operation answers 400 "Invalid feedback payload" and stores nothing
    exactly when one of case_id, reviewer, final_verdict is absent or falsy;
    otherwise it stores one record and answers 200 ok. Neither [action] nor
    the value of [final_verdict] is examined. *)
Theorem C1_feedback_guard env amb g body :
  body <> JNull ->
  fetch env amb (post "/feedback" (Parsed body)) g =
  if required_fields_truthy body then
    (accepted,
     Some {| feedback := (records g ++ [stored_feedback amb body])%list |})
  else
    (Returns (json_response (ErrorBody "Invalid feedback payload") 400), g).
Proof.
  intros Hnn. rewrite fetch_feedback, (feedback_route_spec amb _ body g Hnn).
  now destruct (required_fields_truthy body).
Qed.

Lemma C1_feedback_guard_witness :
  fetch demo_env demo_ambient
    (post "/feedback" (Parsed feedback_without_action)) None =
  if required_fields_truthy feedback_without_action then
    (accepted,
     Some {| feedback :=
               (records None
                  ++ [stored_feedback demo_ambient feedback_without_action])%list |})
  else
    (Returns (json_response (ErrorBody "Invalid feedback payload") 400), None).
Proof.
  apply (C1_feedback_guard demo_env demo_ambient None feedback_without_action).
  discriminate.
Defined.

(** C1 as stated fails: a submission without [action], invalid in the
    specification's words, is accepted and stored. *)
Lemma C1_action_not_checked :
  get "action" feedback_without_action = None
  /\ spec_feedback_valid feedback_without_action = false
  /\ fetch demo_env demo_ambient
       (post "/feedback" (Parsed feedback_without_action)) None =
     (Returns {| status := 200; body := OkBody |},
      Some {| feedback :=
                [ JObj [ ("case_id", JStr "CASE-1001");
                         ("reviewer", JStr "Analyst Demo");
                         ("final_verdict", JStr "Review");
                         ("received_at", JStr "2026-01-15T09:30:00.000Z") ] ] |}).
Proof. repeat split. Qed.

(** C2, as the code has it: on a malformed body [request.json()] rejects and
    neither [/score] nor [/feedback] catches it; the fault leaves the handler
    and the store stays as it was. *)
Theorem C2_malformed_body_propagates env amb g :
  fetch env amb (post "/score" Malformed) g = (Throws SyntaxError, g)
  /\ fetch env amb (post "/feedback" Malformed) g = (Throws SyntaxError, g).
Proof. split; reflexivity. Qed.

(** C2 as stated fails: a malformed [/score] body yields no response at all,
    so no 400 either. *)
Lemma C2_malformed_body_no_response :
  fetch demo_env demo_ambient (post "/score" Malformed) None
    = (Throws SyntaxError, None)
  /\ fetch demo_env demo_ambient (post "/score" Malformed) None
    <> (Returns (json_response (ErrorBody "Missing required fields") 400), None)
  /\ fetch demo_env demo_ambient (post "/feedback" Malformed) None
    <> (Returns (json_response (ErrorBody "Invalid feedback payload") 400), None).
Proof. repeat split; discriminate. Qed.

Lemma score_body_kind env amb c data :
  score_body env amb c = Ok data ->
  (exists r, data = ScoreBody r) \/ data = UntypedBody.
Proof.
  unfold score_body. destruct c as [j|]; [|discriminate].
  destruct j; try discriminate;
    (destruct (scoring_throws _); [discriminate|]);
    (destruct (as_case _); intros [= <-]; eauto).
Qed.

Lemma score_route_not_accepted env amb request :
  outcome_of (score_route env amb request) <> accepted.
Proof.
  unfold score_route, accepted.
  destruct (request_json request) as [body|f]; cbn [bind outcome_of];
    [|discriminate].
  destruct (not_or_else _ _) as [[|]|f]; cbn [bind outcome_of];
    try discriminate.
  destruct (member "case" (Some body)) as [c|f]; cbn [bind outcome_of];
    [|discriminate].
  destruct (score_body env amb c) as [data|f] eqn:Hb; cbn [bind outcome_of];
    [|discriminate].
  destruct (score_body_kind _ _ _ _ Hb) as [[r ->]| ->]; discriminate.
Qed.

Lemma feedback_route_append amb request g :
  (fst (feedback_route amb request g) = Ok (json_response OkBody 200)
   /\ exists body, payload request = Parsed body
        /\ records (snd (feedback_route amb request g))
           = (records g ++ [stored_feedback amb body])%list)
  \/ (outcome_of (fst (feedback_route amb request g)) <> accepted
      /\ snd (feedback_route amb request g) = g).
Proof.
  unfold feedback_route, request_json, accepted.
  destruct (payload request) as [|body]; [right; split; [discriminate|auto]|].
  destruct (feedback_invalid body) as [[|]|f];
    try (right; split; [discriminate|reflexivity]).
  left. destruct g as [s|]; cbn; eauto.
Qed.

Lemma analytics_route_keeps g :
  outcome_of (fst (analytics_route g)) <> accepted
  /\ records (snd (analytics_route g)) = records g.
Proof.
  unfold analytics_route, accepted.
  pose proof (getStore_keeps g) as Hk.
  destruct (getStore g) as [store g1]. cbn [snd] in Hk.
  destruct (tally (feedback store) (Some [])) as [[reasons|]|f];
    cbn [fst snd outcome_of]; split; auto; discriminate.
Qed.

(** C3: a request leaves the sequence of stored records as it was, unless it
    is a feedback submission that is acknowledged, which adds exactly one
    record at the end; what was stored before stays, in place and in order. *)
Theorem C3_store_append_only env amb request g :
  (fst (fetch env amb request g) = accepted
   /\ method request = "POST" /\ pathname request = "/feedback"
   /\ exists body, payload request = Parsed body
        /\ records (snd (fetch env amb request g))
           = (records g ++ [stored_feedback amb body])%list)
  \/ (fst (fetch env amb request g) <> accepted
      /\ records (snd (fetch env amb request g)) = records g).
Proof.
  unfold fetch.
  destruct (String.eqb (method request) "OPTIONS");
    [right; split; [discriminate|reflexivity]|].
  destruct (String.eqb (method request) "GET" && String.eqb (pathname request) "/");
    [right; split; [discriminate|reflexivity]|].
  destruct (String.eqb (method request) "POST"
            && String.eqb (pathname request) "/score").
  { right. split; [apply score_route_not_accepted|reflexivity]. }
  destruct (String.eqb (method request) "POST"
            && String.eqb (pathname request) "/feedback") eqn:Hroute.
  { apply andb_true_iff in Hroute. destruct Hroute as [Hm Hp].
    apply String.eqb_eq in Hm, Hp.
    destruct (feedback_route_append amb request g) as [[Hok Hrec]|[Hno Hsame]];
      destruct (feedback_route amb request g) as [r g']; cbn [fst snd] in *.
    - left. subst r. auto.
    - right. subst g'. auto. }
  destruct (String.eqb (method request) "GET"
            && String.eqb (pathname request) "/analytics").
  { right. destruct (analytics_route_keeps g) as [Hno Hsame].
    destruct (analytics_route g) as [r g']; cbn [fst snd] in *. auto. }
  right. split; [discriminate|reflexivity].
Qed.

(** C10: a required field that is present but the empty string counts as
    absent: [/score] answers 400 "Missing required fields" when the case's
    summary or type is "", and [/feedback] answers 400 "Invalid feedback
    payload" when case_id, reviewer or final_verdict is "". *)
Theorem C10_empty_string_is_absent env amb g body :
  (opt_member "summary" (opt_member "case" (Some body)) = Some (JStr "")
   \/ opt_member "type" (opt_member "case" (Some body)) = Some (JStr "") ->
   fetch env amb (post "/score" (Parsed body)) g =
   (Returns (json_response (ErrorBody "Missing required fields") 400), g))
  /\ (get "case_id" body = Some (JStr "")
      \/ get "reviewer" body = Some (JStr "")
      \/ get "final_verdict" body = Some (JStr "") ->
      fetch env amb (post "/feedback" (Parsed body)) g =
      (Returns (json_response (ErrorBody "Invalid feedback payload") 400), g)).
Proof.
  split.
  - intros H. rewrite fetch_score. unfold score_route.
    cbn [post request_json payload bind]. unfold not_or_else.
    destruct (truthy (opt_member "summary" (opt_member "case" (Some body))))
      eqn:Hs; cbn [negb]; [|reflexivity].
    destruct H as [H|H]; [rewrite H in Hs; discriminate|].
    destruct body; try discriminate; cbn [opt_member member bind] in *;
      destruct (get "case" _) as [[| | | | |]|]; try discriminate;
      cbn [opt_member member bind] in *; rewrite H; reflexivity.
  - intros H.
    assert (Hnn : body <> JNull) by (destruct body; cbn in H; intuition congruence).
    rewrite fetch_feedback, (feedback_route_spec amb _ body g Hnn).
    unfold required_fields_truthy.
    destruct H as [H|[H|H]]; rewrite H; cbn [truthy String.eqb negb andb];
      rewrite ?andb_false_r; reflexivity.
Qed.

Lemma C10_empty_string_is_absent_witness :
  fetch demo_env demo_ambient (post "/score" (Parsed empty_fields_body)) None =
  (Returns (json_response (ErrorBody "Missing required fields") 400), None)
  /\ fetch demo_env demo_ambient (post "/feedback" (Parsed empty_fields_body))
       None =
     (Returns (json_response (ErrorBody "Invalid feedback payload") 400), None).
Proof.
  destruct (C10_empty_string_is_absent demo_env demo_ambient None
              empty_fields_body) as [Hscore Hfeedback].
  split.
  - apply Hscore. left. reflexivity.
  - apply Hfeedback. left. reflexivity.
Defined.

(** ** Sorting *)

Section SortFacts.
Context {A : Type} (cmp : A -> A -> Z) (g : A -> Z).
Hypothesis cmp_g : forall a b, cmp a b = g a - g b.

Lemma insert_perm (x : A) (l : list A) : Permutation (insert cmp x l) (x :: l).
Proof.
  induction l as [|y l IH]; cbn; [reflexivity|].
  destruct (0 <? cmp x y); [|reflexivity].
  rewrite IH. apply perm_swap.
Qed.

Lemma sort_perm (l : list A) : Permutation (sort cmp l) l.
Proof.
  induction l as [|x l IH]; cbn; [reflexivity|].
  now rewrite insert_perm, IH.
Qed.

Variable R : A -> A -> Prop.

Lemma lex_le a b : (lex g R) a b -> g a <= g b.
Proof. unfold lex; lia. Qed.

Lemma insert_lex (x : A) (s : list A) :
  StronglySorted (lex g R) s -> Forall (R x) s -> StronglySorted (lex g R) (insert cmp x s).
Proof.
  induction s as [|y s IH]; intros Hs Hx; cbn.
  - repeat constructor.
  - apply StronglySorted_inv in Hs. destruct Hs as [Hs Hy].
    inversion Hx as [|? ? Hxy Hxs]; subst.
    destruct (Z.ltb_spec 0 (cmp x y)) as [Hlt|Hge]; rewrite cmp_g in *.
    + constructor; [now apply IH|].
      rewrite (insert_perm x s). constructor; [left; lia|exact Hy].
    + constructor; [now constructor|].
      constructor.
      * destruct (Z.eq_dec (g x) (g y)); [right; auto|left; lia].
      * rewrite Forall_forall in Hy, Hxs |- *. intros z Hz.
        pose proof (lex_le _ _ (Hy z Hz)).
        destruct (Z.eq_dec (g x) (g z)); [right; auto|left; lia].
Qed.

(** The sort is stable: where the comparator ties, the input's order stays. *)
Lemma sort_lex (l : list A) :
  StronglySorted R l -> StronglySorted (lex g R) (sort cmp l).
Proof.
  induction l as [|x l IH]; intros Hl; cbn; [constructor|].
  apply StronglySorted_inv in Hl. destruct Hl as [Hl Hx].
  apply insert_lex; [now apply IH|].
  now rewrite (sort_perm l).
Qed.
End SortFacts.

Lemma StronglySorted_weaken {A} (R R' : A -> A -> Prop) (l : list A) :
  (forall a b, In a l -> In b l -> R a b -> R' a b) ->
  StronglySorted R l -> StronglySorted R' l.
Proof.
  induction l as [|x l IH]; intros Himp Hl; [constructor|].
  apply StronglySorted_inv in Hl. destruct Hl as [Hl Hx].
  constructor.
  - apply IH; [|exact Hl]. intros a b Ha Hb. apply Himp; now right.
  - rewrite Forall_forall in Hx |- *. intros y Hy.
    apply Himp; [now left|now right|auto].
Qed.

Lemma StronglySorted_app {A} (R : A -> A -> Prop) (l1 l2 : list A) :
  StronglySorted R l1 -> StronglySorted R l2 ->
  (forall a b, In a l1 -> In b l2 -> R a b) ->
  StronglySorted R (l1 ++ l2).
Proof.
  induction l1 as [|x l1 IH]; intros H1 H2 H12; cbn; [exact H2|].
  apply StronglySorted_inv in H1. destruct H1 as [H1 Hx].
  constructor.
  - apply IH; auto. intros a b Ha. apply H12. now right.
  - apply Forall_app. split; [exact Hx|].
    rewrite Forall_forall. intros b Hb. apply H12; [now left|exact Hb].
Qed.

Lemma StronglySorted_filter {A} (R : A -> A -> Prop) (f : A -> bool) l :
  StronglySorted R l -> StronglySorted R (filter f l).
Proof.
  induction l as [|x l IH]; intros Hl; cbn; [constructor|].
  apply StronglySorted_inv in Hl. destruct Hl as [Hl Hx].
  destruct (f x); [|auto].
  constructor; [auto|].
  rewrite Forall_forall in Hx |- *. intros y Hy.
  apply filter_In in Hy. now apply Hx.
Qed.

Lemma StronglySorted_map {A B} (R : B -> B -> Prop) (f : A -> B) l :
  StronglySorted R (map f l) -> StronglySorted (fun a b => R (f a) (f b)) l.
Proof.
  induction l as [|x l IH]; cbn; intros Hl; [constructor|].
  apply StronglySorted_inv in Hl. destruct Hl as [Hl Hx].
  constructor; [auto|].
  rewrite Forall_forall in Hx |- *. intros y Hy. apply Hx. now apply in_map.
Qed.

(** ** Array indices among property keys *)

Module IndexFacts.
Import JsObject.
Local Open Scope N_scope.

Lemma len_cons c s : len (String c s) = len s + 1.
Proof. unfold len. cbn [String.length]. lia. Qed.

Lemma digit_inv c d : digit c = Some d -> d < 10 /\ c = ascii_of_N (d + 48).
Proof.
  unfold digit. intros H.
  destruct (N.leb_spec 48 (N_of_ascii c)); cbn [andb] in H; [|discriminate].
  destruct (N.leb_spec (N_of_ascii c) 57); [|discriminate].
  injection H as <-. split; [lia|].
  replace (N_of_ascii c - 48 + 48) with (N_of_ascii c) by lia.
  now rewrite ascii_N_embedding.
Qed.

Lemma digits_acc s : forall acc,
  digits acc s = option_map (fun v => acc * 10 ^ len s + v) (digits 0 s).
Proof.
  induction s as [|c s IH]; intros acc.
  - cbn [digits option_map]. f_equal. unfold len. cbn [String.length].
    change (10 ^ N.of_nat 0) with 1. lia.
  - cbn [digits]. destruct (digit c) as [d|]; [|reflexivity].
    rewrite (IH (10 * acc + d)), (IH (10 * 0 + d)), len_cons.
    destruct (digits 0 s) as [v|]; cbn [option_map]; [|reflexivity].
    f_equal. rewrite N.pow_add_r. lia.
Qed.

Lemma digits_cons c s v :
  digits 0 (String c s) = Some v ->
  exists d w, digit c = Some d /\ digits 0 s = Some w /\ v = d * 10 ^ len s + w.
Proof.
  cbn [digits]. destruct (digit c) as [d|]; [|discriminate].
  rewrite digits_acc. destruct (digits 0 s) as [w|]; [|discriminate].
  cbn [option_map]. intros H. injection H as <-.
  exists d, w. repeat split; try reflexivity; lia.
Qed.

Lemma digits_bound s : forall v, digits 0 s = Some v -> v < 10 ^ len s.
Proof.
  induction s as [|c s IH]; intros v H.
  - cbn in H. injection H as <-. cbn. lia.
  - apply digits_cons in H. destruct H as (d & w & Hd & Hw & ->).
    apply digit_inv in Hd. destruct Hd as [Hd _].
    specialize (IH w Hw). rewrite len_cons, N.pow_add_r. nia.
Qed.

(** Numerals of one length with one value are one numeral. *)
Lemma digits_inj s1 : forall s2 v,
  len s1 = len s2 -> digits 0 s1 = Some v -> digits 0 s2 = Some v -> s1 = s2.
Proof.
  induction s1 as [|c1 s1 IH]; intros [|c2 s2] v Hlen H1 H2;
    try reflexivity; rewrite ?len_cons in Hlen; unfold len in Hlen;
    cbn [String.length] in Hlen; try lia.
  fold (len s1) in Hlen. fold (len s2) in Hlen.
  apply digits_cons in H1. destruct H1 as (d1 & w1 & Hd1 & Hw1 & E1).
  apply digits_cons in H2. destruct H2 as (d2 & w2 & Hd2 & Hw2 & E2).
  assert (Hl : len s1 = len s2) by lia.
  pose proof (digits_bound _ _ Hw1) as B1.
  pose proof (digits_bound _ _ Hw2) as B2.
  rewrite Hl in *.
  assert (d1 = d2 /\ w1 = w2) as [-> ->].
  { remember (10 ^ len s2) as P. subst v.
    destruct (N.lt_trichotomy d1 d2) as [Hlt|[Heq|Hgt]]; [exfalso|split|exfalso].
    - assert (d1 * P + P <= d2 * P) by nia. lia.
    - exact Heq.
    - subst d1. lia.
    - assert (d2 * P + P <= d1 * P) by nia. lia. }
  apply digit_inv in Hd1, Hd2. destruct Hd1 as [_ ->], Hd2 as [_ ->].
  f_equal. apply (IH s2 w2); auto.
Qed.

(** A canonical numeral: ["0"], or no leading zero. *)
Lemma array_index_canonical k n :
  array_index k = Some n ->
  digits 0 k = Some n /\ (k = "0"%string \/ 10 ^ len k <= 10 * n).
Proof.
  unfold array_index. destruct k as [|c rest]; [discriminate|].
  destruct (Ascii.eqb c "0" && negb (String.eqb rest "")) eqn:Hz;
    [discriminate|].
  destruct (digits 0 (String c rest)) as [v|] eqn:Hd; [|discriminate].
  destruct (v <=? 4294967294); [|discriminate].
  intros H. injection H as <-. split; [reflexivity|].
  apply andb_false_iff in Hz. rewrite negb_false_iff in Hz.
  destruct Hz as [Hc|Hr].
  - right. apply digits_cons in Hd. destruct Hd as (d & w & Hd & Hw & ->).
    assert (d <> 0).
    { intros ->. apply digit_inv in Hd. destruct Hd as [_ ->].
      discriminate. }
    rewrite len_cons, N.pow_add_r. nia.
  - apply String.eqb_eq in Hr. subst rest.
    destruct (Ascii.eqb_spec c "0") as [->|Hc]; [now left|].
    right. apply digits_cons in Hd. destruct Hd as (d & w & Hd & Hw & ->).
    assert (d <> 0).
    { intros ->. apply digit_inv in Hd. destruct Hd as [_ E]. now apply Hc. }
    rewrite len_cons, N.pow_add_r. nia.
Qed.

Lemma array_index_inj a b n :
  array_index a = Some n -> array_index b = Some n -> a = b.
Proof.
  intros Ha Hb.
  apply array_index_canonical in Ha, Hb.
  destruct Ha as [Da Ca], Hb as [Db Cb].
  pose proof (digits_bound _ _ Da) as Ba.
  pose proof (digits_bound _ _ Db) as Bb.
  assert (Hlen : len a = len b).
  { destruct Ca as [->|Ca], Cb as [->|Cb]; try reflexivity.
    - cbn in Da. injection Da as <-. cbn in Bb.
      assert (0 < 10 ^ len b) by (apply N.neq_0_lt_0, N.pow_nonzero; lia). lia.
    - cbn in Db. injection Db as <-.
      assert (0 < 10 ^ len a) by (apply N.neq_0_lt_0, N.pow_nonzero; lia). lia.
    - destruct (N.lt_trichotomy (len a) (len b)) as [Hlt|[Heq|Hgt]]; auto.
      + assert (10 * 10 ^ len a <= 10 ^ len b).
        { replace (len b) with (len a + 1 + (len b - len a - 1)) by lia.
          rewrite !N.pow_add_r.
          assert (10 ^ (len b - len a - 1) <> 0)
            by (apply N.pow_nonzero; lia).
          nia. }
        lia.
      + assert (10 * 10 ^ len b <= 10 ^ len a).
        { replace (len a) with (len b + 1 + (len a - len b - 1)) by lia.
          rewrite !N.pow_add_r.
          assert (10 ^ (len a - len b - 1) <> 0)
            by (apply N.pow_nonzero; lia).
          nia. }
        lia. }
  exact (digits_inj a b n Hlen Da Db).
Qed.

End IndexFacts.

(** ** The tally of reasons *)

Lemma count_reason_plain r acc :
  JsObject.inherited r = false -> count_reason r acc = Some (bump r acc).
Proof.
  intros Hr. unfold count_reason, bump. rewrite Hr.
  now destruct (own_count r acc).
Qed.

Lemma count_reasons_strings rs : forall ss acc,
  strings_of rs = Some ss ->
  (forall r, In r ss -> JsObject.inherited r = false) ->
  count_reasons rs (Some acc) = Ok (Some (count_all ss acc)).
Proof.
  induction rs as [|j rs IH]; intros ss acc Hss Hplain.
  - cbn in Hss. injection Hss as <-. reflexivity.
  - destruct j; try discriminate. cbn [strings_of] in Hss.
    destruct (strings_of rs) as [ss'|]; [|discriminate].
    cbn [option_map] in Hss. injection Hss as <-.
    cbn [count_reasons]. rewrite count_reason_plain by (apply Hplain; now left).
    apply (IH ss' (bump s acc) eq_refl).
    intros r Hr. apply Hplain. now right.
Qed.

Lemma count_all_app rs1 rs2 acc :
  count_all (rs1 ++ rs2) acc = count_all rs2 (count_all rs1 acc).
Proof. apply fold_left_app. Qed.

(** On a store whose reason codes have their declared type and name nothing
    inherited, the two loops neither throw nor leave the tally. *)
Lemma tally_typed fb : forall rs acc,
  reason_strings fb = Some rs ->
  (forall r, In r rs -> JsObject.inherited r = false) ->
  tally fb (Some acc) = Ok (Some (count_all rs acc)).
Proof.
  induction fb as [|f fb IH]; intros rs acc Hrs Hplain.
  - cbn in Hrs. injection Hrs as <-. reflexivity.
  - cbn [reason_strings] in Hrs.
    destruct (declared_reason_codes f) as [here|] eqn:Hf; [|discriminate].
    destruct (reason_strings fb) as [later|]; [|discriminate].
    injection Hrs as <-. cbn [tally].
    assert (Hhere : forall r, In r here -> JsObject.inherited r = false)
      by (intros r Hr; apply Hplain, in_or_app; now left).
    assert (Hlater : forall r, In r later -> JsObject.inherited r = false)
      by (intros r Hr; apply Hplain, in_or_app; now right).
    rewrite count_all_app.
    unfold declared_reason_codes in Hf. unfold reason_codes_of.
    destruct (get "reason_codes" f) as [[| | | |items|]|]; try discriminate.
    + injection Hf as <-. cbn. now apply IH.
    + rewrite (count_reasons_strings items here acc Hf Hhere). now apply IH.
    + injection Hf as <-. cbn. now apply IH.
Qed.

Lemma own_count_None r acc :
  own_count r acc = None <-> ~ In r (map fst acc).
Proof.
  induction acc as [|[k n] acc IH]; cbn; [tauto|].
  destruct (String.eqb_spec r k); [subst; split; [discriminate|tauto]|].
  rewrite IH. split; [intros H [E|E]; [congruence|tauto]|tauto].
Qed.

Lemma own_count_In k n acc :
  NoDup (map fst acc) -> (In (k, n) acc <-> own_count k acc = Some n).
Proof.
  induction acc as [|[k' n'] acc IH]; cbn; intros Hnd.
  - split; [tauto|discriminate].
  - apply NoDup_cons_iff in Hnd. destruct Hnd as [Hk' Hnd].
    destruct (String.eqb_spec k k') as [->|Hne].
    + split; [intros [E|E]|intros E].
      * congruence.
      * exfalso. apply Hk'. change k' with (fst (k', n)). now apply in_map.
      * left. congruence.
    + rewrite <- (IH Hnd). split; [intros [E|E]; [congruence|auto]|auto].
Qed.

Lemma own_count_set k r n acc :
  own_count k (set_count r n acc)
  = if String.eqb k r then Some n else own_count k acc.
Proof.
  induction acc as [|[k' m] acc IH]; cbn.
  - reflexivity.
  - destruct (String.eqb_spec r k') as [->|Hne]; cbn.
    + now destruct (String.eqb k k').
    + rewrite IH. destruct (String.eqb_spec k k') as [->|]; [|reflexivity].
      destruct (String.eqb_spec k' r); [congruence|reflexivity].
Qed.

Lemma set_count_keys r n acc :
  map fst (set_count r n acc)
  = match own_count r acc with
    | Some _ => map fst acc
    | None => (map fst acc ++ [r])%list
    end.
Proof.
  induction acc as [|[k m] acc IH]; cbn; [reflexivity|].
  destruct (String.eqb r k); cbn; [reflexivity|].
  rewrite IH. now destruct (own_count r acc).
Qed.

Lemma bump_keys r acc :
  map fst (bump r acc)
  = match own_count r acc with
    | Some _ => map fst acc
    | None => (map fst acc ++ [r])%list
    end.
Proof.
  unfold bump. destruct (own_count r acc) eqn:E;
    rewrite set_count_keys, E; reflexivity.
Qed.

Lemma own_count_bump k r acc :
  own_count k (bump r acc)
  = if String.eqb k r then Some ((own_count r acc ?? 0) + 1)
    else own_count k acc.
Proof.
  unfold bump. destruct (own_count r acc); now rewrite own_count_set.
Qed.

Lemma occurrences_cons k r rs :
  occurrences k (r :: rs)
  = (if String.eqb k r then 1 else 0) + occurrences k rs.
Proof.
  unfold occurrences. cbn [count_occ].
  destruct (string_dec r k) as [->|Hne].
  - rewrite String.eqb_refl. lia.
  - destruct (String.eqb_spec k r); [congruence|lia].
Qed.

Lemma occurrences_pos k rs : 0 < occurrences k rs <-> In k rs.
Proof.
  unfold occurrences. rewrite (count_occ_In string_dec). lia.
Qed.

Lemma own_count_count_all rs : forall acc k,
  own_count k (count_all rs acc)
  = match own_count k acc with
    | Some n => Some (n + occurrences k rs)
    | None => if occurrences k rs =? 0 then None else Some (occurrences k rs)
    end.
Proof.
  induction rs as [|r rs IH]; intros acc k.
  - cbn. destruct (own_count k acc); [f_equal; lia|reflexivity].
  - change (count_all (r :: rs) acc) with (count_all rs (bump r acc)).
    rewrite IH, own_count_bump, occurrences_cons.
    pose proof (proj2 (occurrences_pos k rs)) as Hpos.
    assert (0 <= occurrences k rs) by (unfold occurrences; lia).
    destruct (String.eqb_spec k r) as [->|Hne].
    + destruct (own_count r acc); cbn [nullish_or].
      * f_equal; lia.
      * destruct (Z.eqb_spec (1 + occurrences r rs) 0); [lia|f_equal; lia].
    + destruct (own_count k acc); [f_equal; lia|reflexivity].
Qed.

Lemma first_before_cons r rs a b :
  a <> r -> b <> r -> first_before rs a b -> first_before (r :: rs) a b.
Proof.
  intros Ha Hb (l1 & l2 & -> & Hal & Hbl & Hab).
  exists (r :: l1), l2. cbn. intuition congruence.
Qed.

Lemma NoDup_app_disjoint {A} (l1 l2 : list A) (x : A) :
  NoDup (l1 ++ l2) -> In x l1 -> ~ In x l2.
Proof.
  induction l1 as [|y l1 IH]; cbn; intros Hnd Hx; [tauto|].
  apply NoDup_cons_iff in Hnd. destruct Hnd as [Hy Hnd].
  destruct Hx as [->|Hx]; [|auto].
  intros H2. apply Hy, in_or_app. now right.
Qed.

(** New keys join the object in the order of their first occurrence. *)
Lemma count_all_keys rs : forall acc,
  NoDup (map fst acc) ->
  exists news,
    map fst (count_all rs acc) = (map fst acc ++ news)%list
    /\ NoDup (map fst acc ++ news)
    /\ StronglySorted (first_before rs) news.
Proof.
  induction rs as [|r rs IH]; intros acc Hnd.
  - exists []. rewrite app_nil_r. repeat split; auto. constructor.
  - change (count_all (r :: rs) acc) with (count_all rs (bump r acc)).
    pose proof (bump_keys r acc) as Hk.
    destruct (own_count r acc) as [n|] eqn:Hr.
    + assert (Hin : In r (map fst acc)).
      { destruct (in_dec string_dec r (map fst acc)) as [|Hno]; [auto|].
        apply own_count_None in Hno. congruence. }
      destruct (IH (bump r acc)) as (news & Hkeys & Hnd' & Hsorted);
        [now rewrite Hk|].
      rewrite Hk in Hkeys, Hnd'. exists news. repeat split; auto.
      apply (StronglySorted_weaken (first_before rs)); [|exact Hsorted].
      intros a b Ha Hb.
      apply first_before_cons; intros ->;
        now apply (NoDup_app_disjoint _ _ r Hnd').
    + apply own_count_None in Hr.
      destruct (IH (bump r acc)) as (news & Hkeys & Hnd' & Hsorted).
      { rewrite Hk. apply NoDup_app; auto.
        - repeat constructor. intros [].
        - intros x Hx [<-|[]]. auto. }
      rewrite Hk, <- app_assoc in Hkeys, Hnd'. cbn [app] in Hkeys, Hnd'.
      exists (r :: news). repeat split; auto.
      apply NoDup_app_remove_l in Hnd' as Hrn.
      apply NoDup_cons_iff in Hrn. destruct Hrn as [Hrnews Hnews].
      constructor.
      * apply (StronglySorted_weaken (first_before rs)); [|exact Hsorted].
        intros a b Ha Hb. apply first_before_cons; intros ->; auto.
      * rewrite Forall_forall. intros b Hb.
        exists [], rs. cbn. repeat split; auto. intros ->. auto.
Qed.

(** ** The ranking of reasons *)

Lemma filter_split_perm {A} (f : A -> bool) (l : list A) :
  Permutation (filter f l ++ filter (fun a => negb (f a)) l) l.
Proof.
  induction l as [|x l IH]; cbn; [reflexivity|].
  destruct (f x); cbn.
  - now constructor.
  - rewrite <- Permutation_middle. now constructor.
Qed.

Lemma entries_perm {V} (own : list (string * V)) :
  Permutation (JsObject.entries own) own.
Proof.
  unfold JsObject.entries. rewrite sort_perm. apply filter_split_perm.
Qed.

Lemma top_reasons_perm reasons : Permutation (top_reasons_of reasons) reasons.
Proof. unfold top_reasons_of. now rewrite sort_perm, entries_perm. Qed.

Lemma NoDup_distinct {A} (l : list A) :
  NoDup l -> StronglySorted (fun a b => a <> b) l.
Proof.
  induction 1 as [|x l Hx Hnd IH]; constructor; auto.
  rewrite Forall_forall. intros y Hy ->. auto.
Qed.

(** [Object.entries] lists the keys in enumeration order. *)
Lemma entries_enumerated rs (reasons : Reasons) :
  NoDup (map fst reasons) ->
  StronglySorted (first_before rs) (map fst reasons) ->
  StronglySorted (fun a b => enumerated_before rs (fst a) (fst b))
    (JsObject.entries reasons).
Proof.
  intros Hnd Hcreated. unfold JsObject.entries.
  set (g := fun a : string * Z => JsObject.index_of (fst a)).
  apply StronglySorted_app.
  - apply (StronglySorted_weaken
             (lex g (fun a b : string * Z => fst a <> fst b))).
    + intros a b Ha Hb Hlex.
      rewrite (sort_perm _ _) in Ha, Hb.
      apply filter_In in Ha, Hb. destruct Ha as [_ Ha], Hb as [_ Hb].
      unfold enumerated_before. unfold JsObject.is_index in Ha, Hb.
      unfold lex, g, JsObject.index_of in Hlex.
      destruct (JsObject.array_index (fst a)) as [i|] eqn:Ei; [|discriminate].
      destruct (JsObject.array_index (fst b)) as [j|] eqn:Ej; [|discriminate].
      destruct Hlex as [Hlt|[Heq Hne]]; [lia|].
      exfalso. apply Hne. apply (IndexFacts.array_index_inj _ _ i Ei).
      rewrite Ej. f_equal. lia.
    + apply (sort_lex _ g); [reflexivity|].
      apply StronglySorted_filter.
      apply (StronglySorted_map (fun a b : string => a <> b)).
      now apply NoDup_distinct.
  - apply (StronglySorted_weaken
             (fun a b : string * Z => first_before rs (fst a) (fst b))).
    + intros a b Ha Hb Hab.
      apply filter_In in Ha, Hb. destruct Ha as [_ Ha], Hb as [_ Hb].
      unfold enumerated_before. unfold JsObject.is_index in Ha, Hb.
      destruct (JsObject.array_index (fst a)); [discriminate|].
      destruct (JsObject.array_index (fst b)); [discriminate|]. exact Hab.
    + apply StronglySorted_filter. now apply StronglySorted_map.
  - intros a b Ha Hb. rewrite (sort_perm _ _) in Ha.
    apply filter_In in Ha, Hb. destruct Ha as [_ Ha], Hb as [_ Hb].
    unfold enumerated_before. unfold JsObject.is_index in Ha, Hb.
    destruct (JsObject.array_index (fst a)); [|discriminate].
    destruct (JsObject.array_index (fst b)); [discriminate|]. exact I.
Qed.

(** What lines 197-210 make of well-typed reason codes. *)
Lemma top_reasons_ranked rs :
  ranked (enumerated_before rs) rs (top_reasons_of (count_all rs [])).
Proof.
  set (reasons := count_all rs []).
  destruct (count_all_keys rs []) as (news & Hkeys & Hnd & Hcreated);
    [constructor|].
  cbn [map app] in Hkeys, Hnd. fold reasons in Hkeys.
  rewrite <- Hkeys in Hnd, Hcreated.
  pose proof (top_reasons_perm reasons) as Hperm.
  assert (Hcount : forall r n,
             In (r, n) reasons <-> In r rs /\ n = occurrences r rs).
  { intros r n. rewrite (own_count_In _ _ _ Hnd). unfold reasons.
    rewrite own_count_count_all. cbn [own_count].
    rewrite <- occurrences_pos.
    assert (0 <= occurrences r rs) by (unfold occurrences; lia).
    destruct (Z.eqb_spec (occurrences r rs) 0) as [E|E].
    - split; [discriminate|lia].
    - split; [intros [= <-]; lia|intros [_ ->]; reflexivity]. }
  unfold ranked. split; [|split; [|split]].
  - apply (Permutation_NoDup (l := map fst reasons)); [|exact Hnd].
    symmetry. now apply Permutation_map.
  - intros r n. rewrite <- Hcount.
    split; apply Permutation_in; [exact Hperm|now symmetry].
  - apply (StronglySorted_weaken
             (lex (fun a : string * Z => - snd a)
                  (fun a b => enumerated_before rs (fst a) (fst b)))).
    + unfold lex. intros a b _ _ H. lia.
    + apply sort_lex; [intros a b; lia|].
      now apply entries_enumerated.
  - apply (StronglySorted_weaken
             (lex (fun a : string * Z => - snd a)
                  (fun a b => enumerated_before rs (fst a) (fst b)))).
    + unfold lex. intros a b _ _ H Heq. destruct H as [H|[_ H]]; [lia|exact H].
    + apply sort_lex; [intros a b; lia|].
      now apply entries_enumerated.
Qed.

Lemma fetch_analytics env amb p g :
  fetch env amb (get_analytics p) g =
  (outcome_of (fst (analytics_route g)), snd (analytics_route g)).
Proof.
  change (fetch env amb (get_analytics p) g)
    with (let (r, g') := analytics_route g in (outcome_of r, g')).
  now destruct (analytics_route g).
Qed.

(** C9, as the code has it: when every record's reason_codes is absent or a
    list of strings, none of which names a property inherited from
    Object.prototype, top_reasons holds exactly one pair per distinct reason
    with its total number of occurrences, by descending count; ties follow
    the object's key enumeration: reasons that read as array indices first,
    ascending, then the others in order of first occurrence. *)
Theorem C9_top_reasons env amb p g rs :
  reason_strings (records g) = Some rs ->
  (forall r, In r rs -> JsObject.inherited r = false) ->
  exists a,
    fst (fetch env amb (get_analytics p) g)
    = Returns (json_response (AnalyticsBody a) 200)
    /\ ranked (enumerated_before rs) rs (Analytics.top_reasons a).
Proof.
  intros Hrs Hplain. rewrite fetch_analytics. unfold analytics_route.
  pose proof (getStore_records g) as Hfb.
  destruct (getStore g) as [store g1]. cbn [fst] in Hfb.
  cbv beta iota zeta. rewrite Hfb.
  rewrite (tally_typed _ rs [] Hrs Hplain). cbn [fst outcome_of].
  eexists. split; [reflexivity|]. cbn [Analytics.top_reasons].
  apply top_reasons_ranked.
Qed.

Lemma C9_top_reasons_witness :
  exists a,
    fst (fetch demo_env demo_ambient (get_analytics Malformed)
           indexed_reason_store)
    = Returns (json_response (AnalyticsBody a) 200)
    /\ ranked (enumerated_before ["b"; "1"]) ["b"; "1"]
         (Analytics.top_reasons a).
Proof.
  apply (C9_top_reasons demo_env demo_ambient Malformed indexed_reason_store
           ["b"; "1"]).
  - reflexivity.
  - intros r [<-|[<-|[]]]; reflexivity.
Defined.

(** C9 as stated fails: with reasons "b" then "1" in one record, both counted
    once, "1" is listed first although "b" occurs first. *)
Lemma C9_tie_not_first_occurrence :
  reason_strings (records indexed_reason_store) = Some ["b"; "1"]
  /\ fst (fetch demo_env demo_ambient (get_analytics Malformed)
            indexed_reason_store)
     = Returns
         {| status := 200;
            body :=
              AnalyticsBody
                {| Analytics.total_feedback := 1;
                   Analytics.override_rate := JsNumber.hundredths 100;
                   Analytics.top_reasons := [("1", 1); ("b", 1)] |} |}
  /\ ~ ranked (first_before ["b"; "1"]) ["b"; "1"] [("1", 1); ("b", 1)].
Proof.
  split; [reflexivity|]. split; [vm_compute; reflexivity|].
  intros (_ & _ & _ & Hties).
  apply StronglySorted_inv in Hties. destruct Hties as [_ Hfirst].
  apply Forall_inv in Hfirst. cbn in Hfirst.
  destruct (Hfirst eq_refl) as (l1 & l2 & Hrs & H1 & Hb & _).
  destruct l1 as [|x l1]; [discriminate|].
  injection Hrs as <- _. apply Hb. now left.
Qed.

(** ** Binary64 arithmetic on counts *)

Module Binary64.
Import JsNumber.

Lemma digits2_pos_bounds (p : positive) :
  2 ^ (Zpos (digits2_pos p) - 1) <= Zpos p < 2 ^ Zpos (digits2_pos p).
Proof.
  induction p as [p IH|p IH|]; cbn [digits2_pos].
  - rewrite Pos2Z.inj_succ.
    replace (Z.succ (Zpos (digits2_pos p)) - 1)
      with (Z.succ (Zpos (digits2_pos p) - 1)) by lia.
    rewrite !Z.pow_succ_r by lia. lia.
  - rewrite Pos2Z.inj_succ.
    replace (Z.succ (Zpos (digits2_pos p)) - 1)
      with (Z.succ (Zpos (digits2_pos p) - 1)) by lia.
    rewrite !Z.pow_succ_r by lia. lia.
  - cbn. lia.
Qed.

(** The number of binary digits is what the powers of two say. *)
Lemma Zdigits2_eq (m d : Z) :
  0 < d -> 2 ^ (d - 1) <= m < 2 ^ d -> Zdigits2 m = d.
Proof.
  intros Hd Hm.
  assert (0 < 2 ^ (d - 1)) by (apply Z.pow_pos_nonneg; lia).
  destruct m as [|p|p]; try lia. cbn [Zdigits2].
  pose proof (digits2_pos_bounds p) as Hp.
  set (k := Zpos (digits2_pos p)) in *.
  assert (0 < k) by (unfold k; lia).
  destruct (Z.lt_trichotomy k d) as [Hlt|[Heq|Hgt]]; [exfalso|exact Heq|exfalso].
  - assert (2 ^ k <= 2 ^ (d - 1)) by (apply Z.pow_le_mono_r; lia). lia.
  - assert (2 ^ d <= 2 ^ (k - 1)) by (apply Z.pow_le_mono_r; lia). lia.
Qed.

Lemma fexp_normal (x : Z) : -1021 <= x -> fexp prec emax x = x - 53.
Proof. unfold fexp, emin, prec, emax. lia. Qed.

Lemma shr_fexp_53 (m e : Z) (l : location) :
  2 ^ 52 <= m < 2 ^ 53 -> -1074 <= e ->
  shr_fexp prec emax m e l = (shr_record_of_loc m l, e).
Proof.
  intros Hm He. unfold shr_fexp.
  rewrite (Zdigits2_eq m 53) by (cbn; lia).
  rewrite fexp_normal by lia.
  replace (53 + e - 53 - e) with 0 by lia. reflexivity.
Qed.

Lemma shr_fexp_54 (m e : Z) (l : location) :
  2 ^ 53 <= m < 2 ^ 54 -> -1074 <= e ->
  shr_fexp prec emax m e l = (shr_1 (shr_record_of_loc m l), e + 1).
Proof.
  intros Hm He. unfold shr_fexp.
  rewrite (Zdigits2_eq m 54) by (cbn; lia).
  rewrite fexp_normal by lia.
  replace (54 + e - 53 - e) with 1 by lia. reflexivity.
Qed.

Lemma loc_of_shr_record_of_loc (m : Z) (l : location) :
  loc_of_shr_record (shr_record_of_loc m l) = l
  /\ shr_m (shr_record_of_loc m l) = m.
Proof. destruct l as [|[| |]]; split; reflexivity. Qed.

(** The last step of a rounding: a mantissa that the rounding carried to
    [2^53] is renormalised. *)
Lemma renormalise (R e : Z) :
  2 ^ 52 <= R <= 2 ^ 53 -> -1074 <= e <= 969 ->
  exists M E,
    (let '(mrs, e'') := shr_fexp prec emax R e loc_Exact in
     match shr_m mrs with
     | Z0 => S754_zero false
     | Zpos m =>
         if e'' <=? emax - prec then S754_finite false m e''
         else S754_infinity false
     | Zneg _ => S754_nan
     end) = S754_finite false M E
    /\ e <= E <= e + 1 /\ 2 ^ 52 <= Zpos M < 2 ^ 53
    /\ Zpos M * 2 ^ (E - e) = R
    /\ (R < 2 ^ 53 -> E = e).
Proof.
  intros HR He.
  destruct (Z.eq_dec R (2 ^ 53)) as [->|Hne].
  - rewrite shr_fexp_54 by (cbn; lia).
    exists (Z.to_pos (2 ^ 52)), (e + 1). cbn [shr_record_of_loc].
    change (2 ^ 53) with (Zpos (xO (Z.to_pos (2 ^ 52)))) at 1.
    cbn [shr_1 shr_m orb].
    destruct (Z.leb_spec (e + 1) (emax - prec)) as [_|Hbad];
      [|unfold emax, prec in Hbad; lia].
    split; [reflexivity|]. split; [lia|].
    replace (e + 1 - e) with 1 by lia.
    split; [cbn; lia|]. split; [reflexivity|lia].
  - rewrite shr_fexp_53 by lia. cbn [shr_record_of_loc shr_m].
    destruct R as [|p|p]; try lia.
    exists p, e.
    destruct (Z.leb_spec e (emax - prec)) as [_|Hbad];
      [|unfold emax, prec in Hbad; lia].
    split; [reflexivity|]. split; [lia|]. split; [lia|].
    rewrite Z.sub_diag. split; [lia|reflexivity].
Qed.

Lemma new_location_located (d r : Z) :
  0 <= r < d -> located (new_location d r) r d.
Proof.
  intros Hr. unfold new_location, new_location_even, new_location_odd.
  destruct (Z.even d) eqn:Hd.
  - destruct (Z.eqb_spec r 0); [assumption|].
    destruct (Z.compare_spec (2 * r) d); unfold located; lia.
  - destruct (Z.eqb_spec r 0); [assumption|].
    assert (Hodd : Z.odd d = true) by (rewrite <- Z.negb_even, Hd; reflexivity).
    apply Z.odd_spec in Hodd. destruct Hodd as [k ->].
    destruct (Z.compare_spec (2 * r + 1) (2 * k + 1)); unfold located; lia.
Qed.

Lemma round_nearest_even_53 (q r d : Z) (l : location) :
  0 <= r < d -> located l r d ->
  q <= round_nearest_even q l <= q + 1
  /\ 2 * Z.abs (round_nearest_even q l * d - (q * d + r)) <= d.
Proof.
  intros Hr Hl. destruct l as [|[| |]]; unfold located in Hl;
    unfold round_nearest_even; try destruct (Z.even q); split; nia.
Qed.

(** One more bit than fits: the last bit is shifted out before rounding. *)
Lemma round_nearest_even_54 (q r d : Z) (l : location) :
  0 < q -> 0 <= r < d -> located l r d ->
  let mrs := shr_1 (shr_record_of_loc q l) in
  let R := round_nearest_even (shr_m mrs) (loc_of_shr_record mrs) in
  q - 1 <= 2 * R <= q + 2
  /\ Z.abs (2 * R * d - (q * d + r)) <= d.
Proof.
  intros Hq Hr Hl.
  destruct q as [|[p|p|]|p]; try lia;
    destruct l as [|[| |]]; unfold located in Hl;
    cbn [shr_record_of_loc shr_1 shr_m loc_of_shr_record orb];
    unfold round_nearest_even; try destruct (Z.even (Zpos p)); split;
    try nia; change (Z.even 0) with true; cbv iota; nia.
Qed.

Lemma Pos_iter_xO (p k : positive) :
  Zpos (Pos.iter xO p k) = Zpos p * 2 ^ Zpos k.
Proof.
  induction k as [|k IH] using Pos.peano_ind.
  - cbn. lia.
  - rewrite Pos.iter_succ, Pos2Z.inj_succ, Z.pow_succ_r by lia.
    rewrite Pos2Z.inj_xO, IH. lia.
Qed.

(** A count below [2^53] is a number, exactly: a 53-bit mantissa [m] and an
    exponent [e] with [m * 2^e = z]. *)
Lemma of_Z_pos (z : Z) :
  0 < z < 2 ^ 53 ->
  exists m e,
    of_Z z = S754_finite false m e
    /\ 2 ^ 52 <= Zpos m < 2 ^ 53 /\ -52 <= e <= 0
    /\ Zpos m = z * 2 ^ (- e).
Proof.
  intros Hz. destruct z as [|p|p]; try lia.
  unfold of_Z, binary_normalize, binary_round.
  pose proof (digits2_pos_bounds p) as Hd.
  set (d := Zpos (digits2_pos p)) in *.
  assert (Hd0 : 0 < d) by (unfold d; lia).
  assert (Hd53 : d <= 53).
  { destruct (Z.le_gt_cases d 53) as [|Hgt]; [assumption|].
    assert (2 ^ 53 <= 2 ^ (d - 1)) by (apply Z.pow_le_mono_r; lia). lia. }
  rewrite fexp_normal by lia.
  assert (Hm : 2 ^ 52 <= Zpos p * 2 ^ (53 - d) < 2 ^ 53).
  { assert (E52 : 2 ^ 52 = 2 ^ (d - 1) * 2 ^ (53 - d))
      by (rewrite <- Z.pow_add_r by lia; f_equal; lia).
    assert (E53 : 2 ^ 53 = 2 ^ d * 2 ^ (53 - d))
      by (rewrite <- Z.pow_add_r by lia; f_equal; lia).
    assert (0 < 2 ^ (53 - d)) by (apply Z.pow_pos_nonneg; lia).
    rewrite E52, E53. nia. }
  assert (Hshl : exists m,
             shl_align p 0 (d + 0 - 53) = (m, d - 53)
             /\ Zpos m = Zpos p * 2 ^ (53 - d)).
  { unfold shl_align. destruct (d + 0 - 53 - 0) as [|k|k] eqn:Ek; try lia.
    - exists p. replace (d - 53) with 0 by lia.
      replace (53 - d) with 0 by lia. split; [reflexivity|lia].
    - exists (Pos.iter xO p k). replace (d + 0 - 53) with (d - 53) by lia.
      split; [reflexivity|]. rewrite Pos_iter_xO. f_equal. f_equal. lia. }
  destruct Hshl as (m & -> & Hmv). rewrite <- Hmv in Hm.
  unfold binary_round_aux. rewrite shr_fexp_53 by lia.
  cbn [shr_record_of_loc shr_m loc_of_shr_record round_nearest_even].
  destruct (renormalise (Zpos m) (d - 53)) as (M & E & -> & HE & HM & HR & Hsame);
    [lia|lia|].
  specialize (Hsame ltac:(lia)). subst E. rewrite Z.sub_diag in HR.
  exists M, (d - 53). split; [reflexivity|]. split; [lia|]. split; [lia|].
  replace (- (d - 53)) with (53 - d) by lia. lia.
Qed.

(** The quotient of two counts, [o <= t < 2^32]: a number [M * 2^E] within
    half a unit in the last place of [o/t]. *)
Lemma div_counts (o t : Z) :
  0 < o <= t -> t < 2 ^ 32 ->
  exists M E,
    div (of_Z o) (of_Z t) = S754_finite false M E
    /\ E <= -51 /\ 2 ^ 52 <= Zpos M < 2 ^ 53
    /\ 2 * Z.abs (Zpos M * t - o * 2 ^ (- E)) <= t.
Proof.
  intros Ho Ht.
  destruct (of_Z_pos o) as (m1 & e1 & -> & Hm1 & He1 & Hv1); [lia|].
  destruct (of_Z_pos t) as (m2 & e2 & -> & Hm2 & He2 & Hv2); [lia|].
  assert (He12 : e1 <= e2).
  { destruct (Z.le_gt_cases e1 e2) as [|Hgt]; [assumption|exfalso].
    assert (2 * 2 ^ (- e1) <= 2 ^ (- e2)).
    { replace (- e2) with (1 + (- e1) + (e1 - e2 - 1)) by lia.
      rewrite !Z.pow_add_r by lia.
      assert (0 < 2 ^ (- e1)) by (apply Z.pow_pos_nonneg; lia).
      assert (0 < 2 ^ (e1 - e2 - 1)) by (apply Z.pow_pos_nonneg; lia).
      change (2 ^ 1) with 2. nia. }
    nia. }
  unfold div, SFdiv, SFdiv_core_binary. cbn [xorb].
  rewrite !(Zdigits2_eq _ 53) by (cbn; lia).
  rewrite fexp_normal by lia.
  set (e' := e1 - e2 - 53).
  replace (Z.min (53 + e1 - (53 + e2) - 53) (e1 - e2)) with e' by (unfold e'; lia).
  replace (e1 - e2 - e') with 53 by (unfold e'; lia).
  cbv iota. rewrite Z.shiftl_mul_pow2 by lia.
  set (N := Zpos m1 * 2 ^ 53).
  pose proof (Z_div_mod N (Zpos m2) ltac:(lia)) as Hdiv.
  destruct (Z.div_eucl N (Zpos m2)) as [q r]. destruct Hdiv as [HN Hr].
  assert (Hq : 2 ^ 52 <= q < 2 ^ 54) by (unfold N in HN; nia).
  pose proof (new_location_located (Zpos m2) r Hr) as Hloc.
  assert (Hround : exists M E K,
             binary_round_aux prec emax false q e' (new_location (Zpos m2) r)
             = S754_finite false M E
             /\ e' <= E <= e' + 2 /\ 2 ^ 52 <= Zpos M < 2 ^ 53
             /\ K = 2 ^ (E - e')
             /\ 2 * Z.abs (Zpos M * K * Zpos m2 - N) <= K * Zpos m2).
  { unfold binary_round_aux.
    destruct (Z.lt_ge_cases q (2 ^ 53)) as [Hlo|Hhi].
    - rewrite shr_fexp_53 by (unfold e'; lia).
      destruct (loc_of_shr_record_of_loc q (new_location (Zpos m2) r))
        as [-> ->].
      destruct (round_nearest_even_53 q r (Zpos m2) _ Hr Hloc) as [HR Herr].
      destruct (renormalise (round_nearest_even q (new_location (Zpos m2) r)) e')
        as (M & E & -> & HE & HM & HMR & _); [lia|unfold e'; lia|].
      exists M, E, (2 ^ (E - e')). split; [reflexivity|].
      split; [lia|]. split; [lia|]. split; [reflexivity|].
      rewrite HMR.
      assert (1 <= 2 ^ (E - e')) by (apply Z.lt_pred_le, Z.pow_pos_nonneg; lia).
      rewrite HN.
      replace (round_nearest_even q (new_location (Zpos m2) r) * Zpos m2
               - (Zpos m2 * q + r))
        with (round_nearest_even q (new_location (Zpos m2) r) * Zpos m2
              - (q * Zpos m2 + r)) by lia.
      nia.
    - rewrite shr_fexp_54 by (unfold e'; lia).
      destruct (round_nearest_even_54 q r (Zpos m2) _ ltac:(lia) Hr Hloc)
        as [HR Herr].
      set (R := round_nearest_even _ _) in *.
      destruct (renormalise R (e' + 1))
        as (M & E & -> & HE & HM & HMR & _); [lia|unfold e'; lia|].
      exists M, E, (2 ^ (E - e')). split; [reflexivity|].
      split; [lia|]. split; [lia|]. split; [reflexivity|].
      replace (E - e') with (1 + (E - (e' + 1))) by lia.
      rewrite Z.pow_add_r by lia. change (2 ^ 1) with 2.
      assert (1 <= 2 ^ (E - (e' + 1)))
        by (apply Z.lt_pred_le, Z.pow_pos_nonneg; lia).
      replace (Zpos M * (2 * 2 ^ (E - (e' + 1))) * Zpos m2 - N)
        with (2 * R * Zpos m2 - (q * Zpos m2 + r)) by (rewrite <- HMR; lia).
      nia. }
  destruct Hround as (M & E & K & -> & HE & HM & HK & Herr).
  exists M, E. split; [reflexivity|]. split; [unfold e' in HE; lia|].
  split; [exact HM|].
  set (A := 2 ^ (- e2)) in *. set (P := 2 ^ (- E)).
  assert (HA : 0 < A) by (apply Z.pow_pos_nonneg; lia).
  assert (HK0 : 0 < K) by (subst K; apply Z.pow_pos_nonneg; lia).
  assert (HN' : N = o * (A * K * P)).
  { unfold N. rewrite Hv1. unfold A, P. subst K.
    rewrite <- !Z.pow_add_r by (unfold e' in *; lia).
    rewrite <- Z.mul_assoc, <- Z.pow_add_r by lia.
    f_equal. f_equal. unfold e'. lia. }
  rewrite Hv2, HN' in Herr.
  replace (Zpos M * K * (t * A) - o * (A * K * P))
    with ((Zpos M * t - o * P) * (K * A)) in Herr by lia.
  rewrite Z.abs_mul, (Z.abs_eq (K * A)) in Herr by nia.
  assert (0 < K * A) by nia.
  assert (2 * Z.abs (Zpos M * t - o * P) * (K * A) <= t * (K * A)) by lia.
  apply (Z.mul_le_mono_pos_r _ _ (K * A)); assumption.
Qed.

End Binary64.

(** ** The override rate *)

Lemma overrides_range fb : 0 <= overrides fb <= Z.of_nat (List.length fb).
Proof.
  unfold overrides. pose proof (filter_length_le is_override fb). lia.
Qed.

Lemma rate_of_none (t : Z) :
  0 < t < 2 ^ 53 ->
  Number_of (toFixed2 (JsNumber.div (JsNumber.of_Z 0) (JsNumber.of_Z t)))
  = JsNumber.hundredths 0.
Proof.
  intros Ht. destruct (Binary64.of_Z_pos t Ht) as (m & e & -> & _).
  reflexivity.
Qed.

(** [Number((o / t).toFixed(2))] for counts [0 < o <= t]: the two-decimal
    numeral of an integer number [k] of hundredths nearest to [o/t]. *)
Lemma rate_of_some (o t : Z) :
  0 < o <= t -> t < 2 ^ 32 ->
  exists k,
    Number_of (toFixed2 (JsNumber.div (JsNumber.of_Z o) (JsNumber.of_Z t)))
    = JsNumber.hundredths k
    /\ 2 * Z.abs (100 * o - k * t) <= t.
Proof.
  intros Ho Ht.
  destruct (Binary64.div_counts o t Ho Ht) as (M & E & -> & HE & HM & Herr).
  set (P := 2 ^ (- E)) in *.
  assert (HP : 2 ^ 51 <= P) by (apply Z.pow_le_mono_r; lia).
  unfold toFixed2, at_least_1e21, nearest_hundredth.
  destruct (Z.leb_spec 0 E) as [|_]; [lia|].
  fold P. destruct (Z.leb_spec (10 ^ 21 * P) (Zpos M)) as [Hbig|_]; [nia|].
  replace (2 ^ (1 - E)) with (2 * P)
    by (unfold P; replace (1 - E) with (Z.succ (- E)) by lia;
        rewrite Z.pow_succ_r by lia; reflexivity).
  set (k := (200 * Zpos M + P) / (2 * P)).
  exists k. split; [reflexivity|].
  pose proof (Z.div_mod (200 * Zpos M + P) (2 * P) ltac:(lia)) as Hdm.
  pose proof (Z.mod_pos_bound (200 * Zpos M + P) (2 * P) ltac:(lia)) as Hmod.
  fold k in Hdm.
  set (w := (200 * Zpos M + P) mod (2 * P)) in *.
  set (v := Zpos M * t - o * P) in *.
  assert (Hv : - t <= 2 * v <= t) by lia.
  assert (Hsplit : 2 * P * (100 * o - k * t) = (w - P) * t - 200 * v)
    by (unfold v; nia).
  assert (Hup : 2 * P * (100 * o - k * t) < P * (t + 1)) by nia.
  assert (Hdown : - (P * (t + 1)) < 2 * P * (100 * o - k * t)) by nia.
  assert (2 * (100 * o - k * t) < t + 1) by nia.
  assert (- (t + 1) < 2 * (100 * o - k * t)) by nia.
  lia.
Qed.

(** A tie between two hundredths may fall either way: 3 overrides in 200
    records, 0.015, come out as 0.01, the quotient's binary64 value lying
    just below the midpoint. *)
Lemma rate_of_3_in_200 :
  Number_of (toFixed2 (JsNumber.div (JsNumber.of_Z 3) (JsNumber.of_Z 200)))
  = JsNumber.hundredths 1.
Proof. vm_compute. reflexivity. Qed.

Lemma analytics_body_fields env amb p g a :
  fst (fetch env amb (get_analytics p) g)
  = Returns (json_response (AnalyticsBody a) 200) ->
  Analytics.total_feedback a = Z.of_nat (List.length (records g))
  /\ Analytics.override_rate a = override_rate_of (records g).
Proof.
  rewrite fetch_analytics. unfold analytics_route.
  pose proof (getStore_records g) as Hfb.
  destruct (getStore g) as [store g1]. cbn [fst] in Hfb.
  cbv beta iota zeta. rewrite Hfb.
  destruct (tally (records g) (Some [])) as [[reasons|]|f];
    cbn [fst outcome_of]; intros H; try discriminate.
  injection H as <-. split; reflexivity.
Qed.

(** ** More on scoring *)

(** X1: the score can be recomputed from the signals alone: the baseline 20
    plus the weights of the signals listed, capped at 100. *)
Theorem score_from_signals (c : Case.t) :
  score (scoreCase c) = Z.min 100 (20 + total_weight (signals (scoreCase c))).
Proof.
  rewrite score_sum, signals_triggered. unfold triggered, rules.
  cbn [filter snd].
  destruct (high_amount c), (urgency_language (case_text c)),
    (high_risk_payment (case_text c)),
    (social_engineering_phrase (case_text c)); reflexivity.
Qed.

(** X2: only nine scores can come out, and 100 comes out exactly when all
    four rules fire: the cap never acts on any other sum. *)
Theorem score_values (c : Case.t) :
  In (score (scoreCase c)) [20; 35; 45; 50; 60; 70; 75; 85; 100]
  /\ (score (scoreCase c) = 100 <-> signals (scoreCase c) = map fst rules).
Proof.
  rewrite score_sum, signals_triggered. unfold triggered, rules.
  cbn [filter snd].
  destruct (high_amount c), (urgency_language (case_text c)),
    (high_risk_payment (case_text c)),
    (social_engineering_phrase (case_text c));
    (split; [cbn; tauto|split; intros H; try reflexivity; discriminate H]).
Qed.

Lemma toLowerCase_append (s t : string) :
  JsString.toLowerCase (s ++ t)
  = JsString.toLowerCase s ++ JsString.toLowerCase t.
Proof.
  induction s as [|a s IH]; cbn; [reflexivity|]. now rewrite IH.
Qed.

Lemma case_text_fields (c : Case.t) :
  case_text c
  = JsString.toLowerCase (Case.summary c) ++ " "
    ++ JsString.toLowerCase (Case.merchant c ?? "") ++ " "
    ++ JsString.toLowerCase (Case.user_context c ?? "").
Proof. unfold case_text. now rewrite !toLowerCase_append. Qed.

(** X3: scoring is blind to letter case, to the id and to the type, and an
    absent merchant or context counts as an empty one: two cases with the same
    amount whose three texts agree once lower-cased score alike. *)
Theorem scoring_case_insensitive (c c' : Case.t) :
  Case.amount c = Case.amount c' ->
  JsString.toLowerCase (Case.summary c)
  = JsString.toLowerCase (Case.summary c') ->
  JsString.toLowerCase (Case.merchant c ?? "")
  = JsString.toLowerCase (Case.merchant c' ?? "") ->
  JsString.toLowerCase (Case.user_context c ?? "")
  = JsString.toLowerCase (Case.user_context c' ?? "") ->
  scoreCase c = scoreCase c'.
Proof.
  intros Ha Hs Hm Hu.
  assert (Ht : case_text c = case_text c')
    by (rewrite !case_text_fields; congruence).
  unfold scoreCase, high_amount. now rewrite Ht, Ha.
Qed.

Lemma scoring_case_insensitive_witness :
  scoreCase shouting_case = scoreCase whispering_case.
Proof.
  apply (scoring_case_insensitive shouting_case whispering_case);
    reflexivity.
Defined.

Lemma startsWith_app (p : string) : forall s t,
  JsString.startsWith s p = true -> JsString.startsWith (s ++ t) p = true.
Proof.
  induction p as [|a p IH]; intros s t H; [destruct s, t; reflexivity|].
  destruct s as [|b s]; [discriminate|]. cbn in H |- *.
  apply andb_true_iff in H. destruct H as [-> H]. cbn. now apply IH.
Qed.

Lemma includes_app_l (s t p : string) :
  JsString.includes s p = true -> JsString.includes (s ++ t) p = true.
Proof.
  induction s as [|a s IH]; cbn [JsString.includes]; intros H.
  - rewrite orb_false_r in H.
    destruct p; [destruct t; reflexivity|]. discriminate.
  - apply orb_true_iff in H. cbn [append JsString.includes].
    apply orb_true_iff. destruct H as [H|H].
    + left. exact (startsWith_app p (String a s) t H).
    + right. now apply IH.
Qed.

Lemma includes_app_r (s t p : string) :
  JsString.includes t p = true -> JsString.includes (s ++ t) p = true.
Proof.
  induction s as [|a s IH]; intros H; [exact H|].
  cbn [append JsString.includes]. rewrite (IH H). apply orb_true_r.
Qed.

Lemma rule_fires_signal (c : Case.t) (name : string) (f : Case.t -> bool) :
  In (name, f) rules -> f c = true -> In name (signals (scoreCase c)).
Proof.
  intros Hin Hf. rewrite signals_triggered. unfold triggered.
  change name with (fst (name, f)). apply in_map.
  apply filter_In. split; [exact Hin|exact Hf].
Qed.

(** X4: every one of the three texts is searched, in any letter case: a
    trigger phrase inside the summary, the merchant or the user context puts
    the signal of its rule among the signals. *)
Theorem phrase_in_field_fires (c : Case.t) (p s : string) :
  In (p, s) phrase_signals ->
  JsString.includes (JsString.toLowerCase (Case.summary c)) p = true
  \/ JsString.includes (JsString.toLowerCase (Case.merchant c ?? "")) p = true
  \/ JsString.includes (JsString.toLowerCase (Case.user_context c ?? "")) p
     = true ->
  In s (signals (scoreCase c)).
Proof.
  intros Hps Hfield.
  assert (Htext : JsString.includes (case_text c) p = true).
  { rewrite case_text_fields. destruct Hfield as [H|[H|H]].
    - now apply includes_app_l.
    - apply includes_app_r, includes_app_r. now apply includes_app_l.
    - now do 4 apply includes_app_r. }
  cbn in Hps.
  destruct Hps as [E|[E|[E|[E|[E|[E|[E|[]]]]]]]]; injection E as <- <-.
  - apply (rule_fires_signal c _ (fun c => urgency_language (case_text c)));
      [cbn; tauto|]. unfold urgency_language. now rewrite Htext.
  - apply (rule_fires_signal c _ (fun c => urgency_language (case_text c)));
      [cbn; tauto|]. unfold urgency_language. rewrite Htext. apply orb_true_r.
  - apply (rule_fires_signal c _ (fun c => high_risk_payment (case_text c)));
      [cbn; tauto|]. unfold high_risk_payment. now rewrite Htext.
  - apply (rule_fires_signal c _ (fun c => high_risk_payment (case_text c)));
      [cbn; tauto|]. unfold high_risk_payment. rewrite Htext.
    now rewrite orb_true_r.
  - apply (rule_fires_signal c _ (fun c => high_risk_payment (case_text c)));
      [cbn; tauto|]. unfold high_risk_payment. rewrite Htext.
    apply orb_true_r.
  - apply (rule_fires_signal c _
             (fun c => social_engineering_phrase (case_text c)));
      [cbn; tauto|]. unfold social_engineering_phrase. now rewrite Htext.
  - apply (rule_fires_signal c _
             (fun c => social_engineering_phrase (case_text c)));
      [cbn; tauto|]. unfold social_engineering_phrase. rewrite Htext.
    apply orb_true_r.
Qed.

Lemma phrase_in_field_fires_witness :
  In "urgency_language" (signals (scoreCase shouting_case)).
Proof.
  apply (phrase_in_field_fires shouting_case "urgent" "urgency_language").
  - left. reflexivity.
  - left. reflexivity.
Defined.

(** ** More on the handler *)

Lemma truthy_opt_member (k : string) (v : option json) :
  truthy (opt_member k v) = true ->
  exists j, v = Some j /\ member k v = Ok (get k j)
            /\ opt_member k v = get k j.
Proof.
  destruct v as [j|]; [|discriminate].
  destruct j; try discriminate; intros _; eexists; repeat split.
Qed.

Lemma fetch_score_parsed env amb g body :
  fetch env amb (post "/score" (Parsed body)) g =
  (match opt_member "case" (Some body) with
   | Some c =>
       if truthy (get "summary" c) && truthy (get "type" c) then
         if scoring_throws c then Throws TypeError
         else
           Returns
             (json_response
                (match as_case c with
                 | Some cs => ScoreBody (score_response env amb cs)
                 | None => UntypedBody
                 end) 200)
       else Returns (json_response (ErrorBody "Missing required fields") 400)
   | None => Returns (json_response (ErrorBody "Missing required fields") 400)
   end, g).
Proof.
  rewrite fetch_score. unfold score_route.
  cbn [post request_json payload bind]. unfold not_or_else.
  destruct (truthy (opt_member "summary" (opt_member "case" (Some body))))
    eqn:Hs; cbn [negb andb].
  - destruct (truthy_opt_member _ _ Hs) as (c & Hc & _ & Hget).
    assert (Hcase : member "case" (Some body) = Ok (Some c)).
    { destruct body; try discriminate; cbn in Hc |- *; now rewrite Hc. }
    rewrite Hc in Hs. rewrite Hcase, Hc. cbn [bind].
    assert (Hobj : forall k, opt_member k (Some c) = get k c
                             /\ member k (Some c) = Ok (get k c))
      by (intros k; destruct c; try discriminate; split; reflexivity).
    rewrite (proj1 (Hobj "summary")) in Hs. rewrite Hs.
    rewrite (proj2 (Hobj "type")). cbn [bind andb].
    destruct (truthy (get "type" c)); cbn [negb outcome_of]; [|reflexivity].
    unfold score_body. destruct c; try discriminate;
      destruct (scoring_throws _); reflexivity.
  - cbn [outcome_of].
    destruct (opt_member "case" (Some body)) as [c|] eqn:Hc; [|reflexivity].
    assert (Hsum : opt_member "summary" (Some c) = get "summary" c)
      by (destruct c; reflexivity).
    rewrite Hsum in Hs. now rewrite Hs.
Qed.

(** X5: [/score] on a body that parses, also [null], a number or a body
    without a case: 400 "Missing required fields" unless the case's summary
    and type are both truthy; then a TypeError leaves the handler when the
    summary, merchant, user context or amount cannot be made a primitive, and
    otherwise the answer is 200. The store is never touched. *)
Theorem score_route_outcomes env amb g body :
  fetch env amb (post "/score" (Parsed body)) g =
  (match opt_member "case" (Some body) with
   | Some c =>
       if truthy (get "summary" c) && truthy (get "type" c) then
         if scoring_throws c then Throws TypeError
         else
           Returns
             (json_response
                (match as_case c with
                 | Some cs => ScoreBody (score_response env amb cs)
                 | None => UntypedBody
                 end) 200)
       else Returns (json_response (ErrorBody "Missing required fields") 400)
   | None => Returns (json_response (ErrorBody "Missing required fields") 400)
   end, g).
Proof. exact (fetch_score_parsed env amb g body). Qed.

(** A summary that is an object with a [toString] of its own passes the
    guard and throws in the template literal. *)
Lemma unprintable_summary_throws :
  fetch demo_env demo_ambient
    (post "/score" (Parsed unprintable_summary_body)) None
  = (Throws TypeError, None).
Proof. reflexivity. Qed.

(** X6: [/feedback] throws a TypeError on exactly one parsed body, [null];
    every other body that parses gets a response. *)
Theorem feedback_throws_iff_null env amb g body :
  fst (fetch env amb (post "/feedback" (Parsed body)) g) = Throws TypeError
  <-> body = JNull.
Proof.
  split.
  - intros H. destruct body; try reflexivity; exfalso;
      rewrite fetch_feedback, feedback_route_spec in H by discriminate;
      destruct (required_fields_truthy _); discriminate.
  - intros ->. reflexivity.
Qed.

Lemma score_route_status env amb request r :
  outcome_of (score_route env amb request) = Returns r ->
  status r = 200 \/ status r = 400.
Proof.
  unfold score_route.
  destruct (request_json request) as [body|f]; cbn [bind outcome_of];
    [|discriminate].
  destruct (not_or_else _ _) as [[|]|f]; cbn [bind outcome_of];
    try discriminate.
  - intros [= <-]. now right.
  - destruct (member "case" (Some body)) as [c|f]; cbn [bind outcome_of];
      [|discriminate].
    destruct (score_body env amb c) as [data|f]; cbn [bind outcome_of];
      [|discriminate].
    intros [= <-]. now left.
Qed.

Lemma feedback_route_status amb request g r :
  outcome_of (fst (feedback_route amb request g)) = Returns r ->
  status r = 200 \/ status r = 400.
Proof.
  unfold feedback_route.
  destruct (request_json request) as [body|f]; [|discriminate].
  destruct (feedback_invalid body) as [[|]|f]; try discriminate.
  - intros [= <-]. now right.
  - destruct (getStore g). intros [= <-]. now left.
Qed.

Lemma analytics_route_status g r :
  outcome_of (fst (analytics_route g)) = Returns r -> status r = 200.
Proof.
  unfold analytics_route. destruct (getStore g) as [store g1].
  destruct (tally (feedback store) (Some [])) as [[reasons|]|f];
    cbn [fst outcome_of]; try discriminate; now intros [= <-].
Qed.

(** X7: a response has status 200, 204, 400 or 404; it is 204 exactly for
    the method OPTIONS, on any path, and 404 exactly for a method and path
    that are none of the five routes. *)
Theorem response_statuses env amb request g r :
  fst (fetch env amb request g) = Returns r ->
  In (status r) [200; 204; 400; 404]
  /\ (status r = 204 <-> method request = "OPTIONS")
  /\ (status r = 404 <-> known_route request = false).
Proof.
  unfold fetch, known_route.
  destruct (String.eqb_spec (method request) "OPTIONS") as [Ho|Ho].
  { cbn [fst orb]. intros [= <-]. cbn. intuition discriminate. }
  cbn [orb].
  destruct (String.eqb (method request) "GET" && String.eqb (pathname request) "/").
  { cbn [fst orb]. intros [= <-]. cbn. intuition discriminate. }
  cbn [orb].
  destruct (String.eqb (method request) "POST"
            && String.eqb (pathname request) "/score").
  { cbn [fst orb]. intros H. apply score_route_status in H.
    cbn. intuition (try discriminate; try lia; congruence). }
  cbn [orb].
  destruct (String.eqb (method request) "POST"
            && String.eqb (pathname request) "/feedback").
  { cbn [orb]. intros H.
    assert (Hs : status r = 200 \/ status r = 400).
    { apply (feedback_route_status amb request g).
      destruct (feedback_route amb request g). exact H. }
    cbn. intuition (try discriminate; try lia; congruence). }
  cbn [orb].
  destruct (String.eqb (method request) "GET"
            && String.eqb (pathname request) "/analytics").
  { intros H.
    assert (Hs : status r = 200).
    { apply (analytics_route_status g).
      destruct (analytics_route g). exact H. }
    cbn. intuition (try discriminate; try lia; congruence). }
  cbn [fst]. intros [= <-]. cbn. intuition (try discriminate; congruence).
Qed.

Lemma response_statuses_witness :
  In 404 [200; 204; 400; 404]
  /\ (404 = 204 <-> "GET" = "OPTIONS")
  /\ (404 = 404 <->
      known_route {| method := "GET"; pathname := "/score";
                     payload := Malformed |} = false).
Proof.
  apply (response_statuses demo_env demo_ambient
           {| method := "GET"; pathname := "/score"; payload := Malformed |}
           None (json_response (ErrorBody "Not found") 404)).
  reflexivity.
Defined.

Lemma lookup_set_prop (k k' : string) (v : json) (ps : props) :
  lookup k (set_prop k' v ps)
  = if String.eqb k k' then Some v else lookup k ps.
Proof.
  induction ps as [|[k0 v0] ps IH]; cbn.
  - reflexivity.
  - destruct (String.eqb_spec k' k0) as [->|Hne]; cbn.
    + now destruct (String.eqb k k0).
    + rewrite IH. destruct (String.eqb_spec k k0) as [->|]; [|reflexivity].
      destruct (String.eqb_spec k0 k'); [congruence|reflexivity].
Qed.

(** Only an object passes the guard of [/feedback]. *)
Lemma accepted_is_object (body : json) :
  required_fields_truthy body = true -> exists ps, body = JObj ps.
Proof.
  unfold required_fields_truthy. destruct body; try discriminate. eauto.
Qed.

Lemma stored_feedback_get amb body k :
  required_fields_truthy body = true ->
  get k (stored_feedback amb body)
  = if String.eqb k "received_at" then Some (JStr (now amb)) else get k body.
Proof.
  intros H. destruct (accepted_is_object body H) as [ps ->].
  unfold stored_feedback. cbn [get own_props]. apply lookup_set_prop.
Qed.

Lemma fetch_feedback_accepted env amb g body :
  required_fields_truthy body = true ->
  fetch env amb (post "/feedback" (Parsed body)) g
  = (accepted,
     Some {| feedback := (records g ++ [stored_feedback amb body])%list |}).
Proof.
  intros H. destruct (accepted_is_object body H) as [ps ->].
  rewrite fetch_feedback, feedback_route_spec by discriminate.
  now rewrite H.
Qed.

(** X8: an accepted submission is stored with every field exactly as sent,
    except [received_at], which is the server's clock even when the body
    brings a [received_at] of its own. *)
Theorem stored_record_fields env amb g body :
  required_fields_truthy body = true ->
  exists r,
    records (snd (fetch env amb (post "/feedback" (Parsed body)) g))
    = (records g ++ [r])%list
    /\ get "received_at" r = Some (JStr (now amb))
    /\ forall k, k <> "received_at" -> get k r = get k body.
Proof.
  intros H. rewrite (fetch_feedback_accepted env amb g body H).
  exists (stored_feedback amb body). split; [reflexivity|]. split.
  - now rewrite stored_feedback_get.
  - intros k Hk. rewrite stored_feedback_get by assumption.
    destruct (String.eqb_spec k "received_at"); [contradiction|reflexivity].
Qed.

Lemma stored_record_fields_witness :
  exists r,
    records (snd (fetch demo_env demo_ambient
                    (post "/feedback" (Parsed backdated_feedback)) None))
    = ([] ++ [r])%list
    /\ get "received_at" r = Some (JStr "2026-01-15T09:30:00.000Z")
    /\ forall k, k <> "received_at" -> get k r = get k backdated_feedback.
Proof.
  apply (stored_record_fields demo_env demo_ambient None backdated_feedback).
  reflexivity.
Defined.

Lemma overrides_snoc (fb : list json) (f : json) :
  overrides (fb ++ [f]) = overrides fb + (if is_override f then 1 else 0).
Proof.
  unfold overrides. rewrite filter_app, length_app. cbn [filter].
  destruct (is_override f); cbn [List.length]; lia.
Qed.

(** X9: an accepted submission raises the total by one and the number of
    overrides by one exactly when its [action] is the string "Override";
    nothing is merged with an earlier record of the same case. *)
Theorem feedback_then_counts env amb g body :
  required_fields_truthy body = true ->
  let g' := snd (fetch env amb (post "/feedback" (Parsed body)) g) in
  Z.of_nat (List.length (records g')) = Z.of_nat (List.length (records g)) + 1
  /\ overrides (records g')
     = overrides (records g)
       + (if is_override body then 1 else 0).
Proof.
  intros H. rewrite (fetch_feedback_accepted env amb g body H).
  cbn [snd records feedback]. split.
  - rewrite length_app. cbn [List.length]. lia.
  - rewrite overrides_snoc. unfold is_override.
    rewrite stored_feedback_get by assumption. reflexivity.
Qed.

Lemma feedback_then_counts_witness :
  let g' := snd (fetch demo_env demo_ambient
                   (post "/feedback" (Parsed backdated_feedback))
                   (Some {| feedback := three_reviews |})) in
  Z.of_nat (List.length (records g'))
  = Z.of_nat (List.length three_reviews) + 1
  /\ overrides (records g')
     = overrides three_reviews
       + (if is_override backdated_feedback then 1 else 0).
Proof.
  apply (feedback_then_counts demo_env demo_ambient
           (Some {| feedback := three_reviews |}) backdated_feedback).
  reflexivity.
Defined.

Lemma is_accepted_spec (out : Outcome) :
  is_accepted out = true <-> out = accepted.
Proof.
  unfold accepted, json_response. split; [|intros ->; reflexivity].
  destruct out as [[st b]|f]; [|discriminate]. cbn.
  destruct st as [|p|p]; try discriminate.
  destruct (Pos.eq_dec p 200) as [->|Hne].
  - destruct b; try discriminate. reflexivity.
  - intros H. exfalso.
    do 8 (destruct p as [p|p|]; try discriminate H); destruct b;
      try discriminate H; now apply Hne.
Qed.

(** One request adds one record when its outcome is the acknowledgement, and
    none otherwise. *)
Lemma fetch_adds env amb request g :
  exists added,
    records (snd (fetch env amb request g)) = (records g ++ added)%list
    /\ List.length added
       = if is_accepted (fst (fetch env amb request g)) then 1%nat else 0%nat.
Proof.
  assert (Hkeep : forall out g',
             out <> accepted -> records g' = records g ->
             exists added,
               records g' = (records g ++ added)%list
               /\ List.length added = if is_accepted out then 1%nat else 0%nat).
  { intros out g' Hno Hsame. exists []. rewrite app_nil_r. split; [auto|].
    destruct (is_accepted out) eqn:E; [|reflexivity].
    apply is_accepted_spec in E. contradiction. }
  unfold fetch.
  destruct (String.eqb (method request) "OPTIONS");
    [apply Hkeep; [discriminate|reflexivity]|].
  destruct (String.eqb (method request) "GET" && String.eqb (pathname request) "/");
    [apply Hkeep; [discriminate|reflexivity]|].
  destruct (String.eqb (method request) "POST"
            && String.eqb (pathname request) "/score").
  { apply Hkeep; [apply score_route_not_accepted|reflexivity]. }
  destruct (String.eqb (method request) "POST"
            && String.eqb (pathname request) "/feedback").
  { destruct (feedback_route_append amb request g)
      as [[Hok (body & _ & Hrec)]|[Hno Hsame]];
      destruct (feedback_route amb request g) as [r g']; cbn [fst snd] in *.
    - subst r. exists [stored_feedback amb body]. split; [exact Hrec|reflexivity].
    - apply Hkeep; [exact Hno|now subst g']. }
  destruct (String.eqb (method request) "GET"
            && String.eqb (pathname request) "/analytics").
  { destruct (analytics_route_keeps g) as [Hno Hsame].
    destruct (analytics_route g) as [r g']; cbn [fst snd] in *.
    now apply Hkeep. }
  apply Hkeep; [discriminate|reflexivity].
Qed.

Lemma run_records env (steps : list (Ambient * Request)) : forall g,
  exists added,
    records (snd (run env steps g)) = (records g ++ added)%list
    /\ List.length added
       = List.length (filter is_accepted (fst (run env steps g)))
    /\ List.length (fst (run env steps g)) = List.length steps.
Proof.
  induction steps as [|[amb request] steps IH]; intros g.
  - exists []. cbn. rewrite app_nil_r. auto.
  - cbn [run].
    destruct (fetch_adds env amb request g) as (a1 & Hr1 & Hl1).
    destruct (fetch env amb request g) as [out g1]. cbn [fst snd] in *.
    destruct (IH g1) as (a2 & Hr2 & Hl2 & Hn).
    destruct (run env steps g1) as [outs g2]. cbn [fst snd] in *.
    exists (a1 ++ a2)%list. rewrite Hr2, Hr1, app_assoc. split; [reflexivity|].
    rewrite length_app, Hl1, Hl2. cbn [filter List.length].
    split; [|now rewrite Hn].
    destruct (is_accepted out); reflexivity.
Qed.

(** X10: over any sequence of requests the store only grows at its end: what
    was stored stays a prefix, and the number of records added is the number
    of acknowledgements given, also for repeated submissions of one body. *)
Theorem run_appends env (steps : list (Ambient * Request)) (g : Global) :
  exists added,
    records (snd (run env steps g)) = (records g ++ added)%list
    /\ List.length added
       = List.length (filter is_accepted (fst (run env steps g)))
    /\ List.length (fst (run env steps g)) = List.length steps.
Proof. exact (run_records env steps g). Qed.

Lemma analytics_route_of_records (g g' : Global) :
  records g = records g' ->
  fst (analytics_route g) = fst (analytics_route g').
Proof.
  intros H. unfold analytics_route.
  pose proof (getStore_records g) as Hg.
  pose proof (getStore_records g') as Hg'.
  destruct (getStore g) as [s g1], (getStore g') as [s' g1'].
  cbn [fst] in Hg, Hg'. cbv beta iota zeta. rewrite Hg, Hg', H.
  destruct (tally (records g') (Some [])) as [[reasons|]|f]; reflexivity.
Qed.

(** X11: what [/analytics] answers hangs on the stored records alone: not on
    whether the store object exists yet, nor on the clock, the
    configuration or the request's body. *)
Theorem analytics_reads_records env env' amb amb' p p' (g g' : Global) :
  records g = records g' ->
  fst (fetch env amb (get_analytics p) g)
  = fst (fetch env' amb' (get_analytics p') g').
Proof.
  intros H. rewrite !fetch_analytics. cbn [fst].
  now rewrite (analytics_route_of_records g g' H).
Qed.

Lemma analytics_reads_records_witness :
  fst (fetch demo_env demo_ambient (get_analytics Malformed) None)
  = fst (fetch {| MODEL_NAME := Some "m"; BACKEND := None |} demo_ambient
           (get_analytics (Parsed JNull)) (Some {| feedback := [] |})).
Proof.
  apply (analytics_reads_records demo_env _ demo_ambient demo_ambient
           Malformed (Parsed JNull) None (Some {| feedback := [] |})).
  reflexivity.
Defined.

Lemma count_reasons_raise (rs : list json) : forall reasons,
  if forallb coercible rs then exists final, count_reasons rs reasons = Ok final
  else count_reasons rs reasons = Raise TypeError.
Proof.
  induction rs as [|j rs IH]; intros reasons; cbn [forallb count_reasons].
  - eauto.
  - destruct j; cbn [coercible andb]; try apply IH.
    + destruct (forallb coercible items); cbn [andb]; [apply IH|reflexivity].
    + destruct (lookup "toString" props); cbn [andb]; [reflexivity|apply IH].
Qed.

Lemma tally_raise (fb : list json) : forall reasons,
  if existsb unreadable fb then tally fb reasons = Raise TypeError
  else exists final, tally fb reasons = Ok final.
Proof.
  induction fb as [|f fb IH]; intros reasons; cbn [existsb tally].
  - eauto.
  - unfold unreadable at 1. destruct (reason_codes_of f) as [|rs|];
      cbn [orb]; [reflexivity| |apply IH].
    pose proof (count_reasons_raise rs reasons) as Hrs.
    destruct (forallb coercible rs); cbn [negb orb].
    + destruct Hrs as [final ->]. apply IH.
    + now rewrite Hrs.
Qed.

Lemma analytics_outcome env amb p (g : Global) :
  if existsb unreadable (records g)
  then fst (fetch env amb (get_analytics p) g) = Throws TypeError
  else exists b, fst (fetch env amb (get_analytics p) g)
                 = Returns (json_response b 200).
Proof.
  rewrite fetch_analytics. unfold analytics_route.
  pose proof (getStore_records g) as Hfb.
  destruct (getStore g) as [store g1]. cbn [fst] in Hfb.
  cbv beta iota zeta. rewrite Hfb.
  pose proof (tally_raise (records g) (Some [])) as Ht.
  destruct (existsb unreadable (records g)).
  - now rewrite Ht.
  - destruct Ht as [[reasons|] ->]; cbn [fst outcome_of]; eauto.
Qed.

(** X12: [/analytics] throws a TypeError exactly when some stored record's
    [reason_codes] is a number, a boolean or an object, or is a list holding
    an item that cannot be made a property key; otherwise it answers 200. *)
Theorem analytics_throws_iff env amb p (g : Global) :
  if existsb unreadable (records g)
  then fst (fetch env amb (get_analytics p) g) = Throws TypeError
  else exists b, fst (fetch env amb (get_analytics p) g)
                 = Returns (json_response b 200).
Proof. exact (analytics_outcome env amb p g). Qed.

(** A stored reason that is an object with a [toString] of its own is
    accepted by the guard and throws in the tally. *)
Lemma unprintable_reason_throws :
  let g1 := snd (fetch demo_env demo_ambient
                   (post "/feedback" (Parsed unprintable_reason_feedback))
                   None) in
  existsb not_iterable (records g1) = false
  /\ fst (fetch demo_env demo_ambient (get_analytics Malformed) g1)
     = Throws TypeError.
Proof. split; reflexivity. Qed.

Lemma not_iterable_unreadable (f : json) :
  not_iterable f = true -> unreadable f = true.
Proof.
  unfold not_iterable, unreadable.
  destruct (reason_codes_of f); [reflexivity|discriminate|discriminate].
Qed.

Lemma not_iterable_stored amb body :
  required_fields_truthy body = true ->
  not_iterable (stored_feedback amb body) = not_iterable body.
Proof.
  intros H. unfold not_iterable, reason_codes_of.
  now rewrite stored_feedback_get.
Qed.

(** X13: the guard of [/feedback] lets through a body whose [reason_codes]
    cannot be iterated, and once it is stored every later [/analytics]
    request throws, whatever requests come in between. *)
Theorem unreadable_reasons_break_analytics env amb amb' p g body steps :
  required_fields_truthy body = true ->
  not_iterable body = true ->
  let g1 := snd (fetch env amb (post "/feedback" (Parsed body)) g) in
  fst (fetch env amb (post "/feedback" (Parsed body)) g) = accepted
  /\ fst (fetch env amb' (get_analytics p) (snd (run env steps g1)))
     = Throws TypeError.
Proof.
  intros Hok Hbad. rewrite (fetch_feedback_accepted env amb g body Hok).
  cbn [fst snd]. split; [reflexivity|].
  set (g1 := Some _).
  destruct (run_records env steps g1) as (added & Hrec & _).
  pose proof (analytics_outcome env amb' p (snd (run env steps g1))) as H.
  rewrite Hrec in H. unfold g1 in H. cbn [records feedback] in H.
  rewrite !existsb_app in H. cbn [existsb] in H.
  rewrite (not_iterable_unreadable (stored_feedback amb body)) in H
    by (now rewrite not_iterable_stored).
  rewrite orb_true_r in H. exact H.
Qed.

Lemma unreadable_reasons_break_analytics_witness :
  let g1 := snd (fetch demo_env demo_ambient
                   (post "/feedback" (Parsed numeric_reasons_feedback)) None) in
  fst (fetch demo_env demo_ambient
         (post "/feedback" (Parsed numeric_reasons_feedback)) None) = accepted
  /\ fst (fetch demo_env demo_ambient (get_analytics Malformed)
            (snd (run demo_env
                    [(demo_ambient,
                      post "/feedback" (Parsed backdated_feedback))] g1)))
     = Throws TypeError.
Proof.
  apply (unreadable_reasons_break_analytics demo_env demo_ambient demo_ambient
           Malformed None numeric_reasons_feedback
           [(demo_ambient, post "/feedback" (Parsed backdated_feedback))]).
  - reflexivity.
  - reflexivity.
Defined.

(** ** More on the ranking of reasons *)

Lemma sum_counts_perm (l l' : list (string * Z)) :
  Permutation l l' -> sum_counts l = sum_counts l'.
Proof.
  induction 1 as [|x l l' _ IH|x y l|l l' l'' _ IH1 _ IH2];
    unfold sum_counts in *; cbn [fold_right] in *; lia.
Qed.

Lemma sum_counts_set (r : string) (m : Z) (acc : Reasons) :
  sum_counts (set_count r m acc)
  = sum_counts acc - (own_count r acc ?? 0) + m.
Proof.
  unfold sum_counts.
  induction acc as [|[k n] acc IH]; cbn [set_count own_count fold_right snd];
    [cbn; lia|].
  destruct (String.eqb r k); cbn [fold_right snd nullish_or]; lia.
Qed.

Lemma sum_counts_bump (r : string) (acc : Reasons) :
  sum_counts (bump r acc) = sum_counts acc + 1.
Proof.
  unfold bump. destruct (own_count r acc) as [n|] eqn:E;
    rewrite sum_counts_set, E; cbn [nullish_or]; lia.
Qed.

Lemma sum_counts_count_all (rs : list string) : forall acc,
  sum_counts (count_all rs acc) = sum_counts acc + Z.of_nat (List.length rs).
Proof.
  induction rs as [|r rs IH]; intros acc;
    [unfold count_all; cbn [fold_left List.length]; lia|].
  change (count_all (r :: rs) acc) with (count_all rs (bump r acc)).
  rewrite IH, sum_counts_bump. cbn [List.length]. lia.
Qed.

Lemma fetch_analytics_typed env amb p g rs :
  reason_strings (records g) = Some rs ->
  (forall r, In r rs -> JsObject.inherited r = false) ->
  fst (fetch env amb (get_analytics p) g)
  = Returns
      (json_response
         (AnalyticsBody
            {| Analytics.total_feedback := Z.of_nat (List.length (records g));
               Analytics.override_rate := override_rate_of (records g);
               Analytics.top_reasons := top_reasons_of (count_all rs []) |})
         200).
Proof.
  intros Hrs Hplain. rewrite fetch_analytics. unfold analytics_route.
  pose proof (getStore_records g) as Hfb.
  destruct (getStore g) as [store g1]. cbn [fst] in Hfb.
  cbv beta iota zeta. rewrite Hfb.
  now rewrite (tally_typed _ rs [] Hrs Hplain).
Qed.

(** X14: nothing is lost or counted twice in the tally: the counts of
    top_reasons add up to the number of reason codes in the store, and every
    listed reason has a count of at least one. *)
Theorem counts_add_up env amb p g rs :
  reason_strings (records g) = Some rs ->
  (forall r, In r rs -> JsObject.inherited r = false) ->
  exists a,
    fst (fetch env amb (get_analytics p) g)
    = Returns (json_response (AnalyticsBody a) 200)
    /\ sum_counts (Analytics.top_reasons a) = Z.of_nat (List.length rs)
    /\ Forall (fun pair => 1 <= snd pair) (Analytics.top_reasons a).
Proof.
  intros Hrs Hplain. rewrite (fetch_analytics_typed env amb p g rs Hrs Hplain).
  eexists. split; [reflexivity|]. cbn [Analytics.top_reasons]. split.
  - rewrite (sum_counts_perm _ _ (top_reasons_perm _)).
    now rewrite sum_counts_count_all.
  - destruct (top_reasons_ranked rs) as (_ & Hcount & _).
    rewrite Forall_forall. intros [r n] Hin.
    apply Hcount in Hin. destruct Hin as [Hin ->].
    apply occurrences_pos in Hin. cbn [snd]. lia.
Qed.

Lemma counts_add_up_witness :
  exists a,
    fst (fetch demo_env demo_ambient (get_analytics Malformed)
           indexed_reason_store)
    = Returns (json_response (AnalyticsBody a) 200)
    /\ sum_counts (Analytics.top_reasons a)
       = Z.of_nat (List.length ["b"; "1"])
    /\ Forall (fun pair => 1 <= snd pair) (Analytics.top_reasons a).
Proof.
  apply (counts_add_up demo_env demo_ambient Malformed indexed_reason_store
           ["b"; "1"]).
  - reflexivity.
  - intros r [<-|[<-|[]]]; reflexivity.
Defined.

(** The codes of the review screen are neither array indices nor inherited
    names. *)
Lemma offered_reasons_plain (r : string) :
  In r App.offered_reasons ->
  JsObject.inherited r = false /\ JsObject.is_index r = false.
Proof. intros [<-|[<-|[<-|[]]]]; split; reflexivity. Qed.

(** X15: when no reason code reads as an array index (and none names an
    inherited property), reasons with equal counts are listed in the order in
    which they first occur in the store; the three codes the review screen
    offers are of that kind. *)
Theorem ties_by_first_occurrence env amb p g rs :
  reason_strings (records g) = Some rs ->
  (forall r, In r rs ->
     JsObject.inherited r = false /\ JsObject.is_index r = false) ->
  exists a,
    fst (fetch env amb (get_analytics p) g)
    = Returns (json_response (AnalyticsBody a) 200)
    /\ ranked (first_before rs) rs (Analytics.top_reasons a).
Proof.
  intros Hrs Hplain.
  rewrite (fetch_analytics_typed env amb p g rs Hrs)
    by (intros r Hr; apply Hplain; exact Hr).
  eexists. split; [reflexivity|]. cbn [Analytics.top_reasons].
  destruct (top_reasons_ranked rs) as (Hnd & Hcount & Hdesc & Hties).
  split; [exact Hnd|]. split; [exact Hcount|]. split; [exact Hdesc|].
  apply (StronglySorted_weaken
           (fun a b => snd a = snd b -> enumerated_before rs (fst a) (fst b)));
    [|exact Hties].
  intros [ra na] [rb nb] Ha Hb Hab Heq. specialize (Hab Heq).
  apply Hcount in Ha, Hb. destruct Ha as [Ha _], Hb as [Hb _].
  apply Hplain in Ha, Hb. destruct Ha as [_ Ha], Hb as [_ Hb].
  cbn [fst] in *. unfold enumerated_before in Hab.
  unfold JsObject.is_index in Ha, Hb.
  destruct (JsObject.array_index ra); [discriminate|].
  destruct (JsObject.array_index rb); [discriminate|]. exact Hab.
Qed.

Lemma ties_by_first_occurrence_witness :
  exists a,
    fst (fetch demo_env demo_ambient (get_analytics Malformed)
           (Some {| feedback := tied_reviews |}))
    = Returns (json_response (AnalyticsBody a) 200)
    /\ ranked
         (first_before
            ["missing_context"; "false_positive"; "false_positive";
             "edge_case"; "missing_context"])
         ["missing_context"; "false_positive"; "false_positive";
          "edge_case"; "missing_context"]
         (Analytics.top_reasons a).
Proof.
  apply (ties_by_first_occurrence demo_env demo_ambient Malformed
           (Some {| feedback := tied_reviews |})
           ["missing_context"; "false_positive"; "false_positive";
            "edge_case"; "missing_context"]).
  - reflexivity.
  - intros r Hr. apply offered_reasons_plain.
    cbn in Hr |- *. intuition.
Defined.

(** The two reasons that tie at two occurrences come out in the order of
    their first occurrence, missing_context before false_positive. *)
Lemma tied_reviews_ranking :
  fst (fetch demo_env demo_ambient (get_analytics Malformed)
         (Some {| feedback := tied_reviews |}))
  = Returns
      {| status := 200;
         body :=
           AnalyticsBody
             {| Analytics.total_feedback := 2;
                Analytics.override_rate := JsNumber.hundredths 100;
                Analytics.top_reasons :=
                  [ ("missing_context", 2); ("false_positive", 2);
                    ("edge_case", 1) ] |} |}.
Proof. vm_compute. reflexivity. Qed.

(** ** The review screen against the worker *)

Lemma strings_of_map (rs : list string) : strings_of (map JStr rs) = Some rs.
Proof.
  induction rs as [|r rs IH]; cbn; [reflexivity|]. now rewrite IH.
Qed.

Lemma as_case_payload (selected : App.CaseItem) :
  opt_member "case" (Some (App.score_payload selected))
    = get "case" (App.score_payload selected)
  /\ exists c,
       get "case" (App.score_payload selected) = Some c
       /\ get "summary" c = Some (JStr (App.summary selected))
       /\ get "type" c = Some (JStr (App.type_name (App.type selected)))
       /\ as_case c = Some (App.case_of_item selected)
       /\ scoring_throws c = false.
Proof.
  split; [reflexivity|]. eexists. split; [reflexivity|].
  split; [reflexivity|]. split; [reflexivity|].
  unfold as_case, App.case_of_item.
  destruct selected as [i t s [[z|z| |z m e]|]]; split; reflexivity.
Qed.

(** X16: the score request the screen sends for a case is answered with 400
    when the summary is empty and otherwise with 200 and the score of the
    summary and amount alone; the response's case_id is the case's id, also
    an empty one, so no UUID is generated. *)
Theorem screen_score_request env amb g (selected : App.CaseItem) :
  fetch env amb (post "/score" (Parsed (App.score_payload selected))) g =
  (Returns
     (if String.eqb (App.summary selected) ""
      then json_response (ErrorBody "Missing required fields") 400
      else json_response
             (ScoreBody (score_response env amb (App.case_of_item selected)))
             200),
   g)
  /\ ScoreResponse.case_id (score_response env amb (App.case_of_item selected))
     = App.id selected.
Proof.
  split; [|reflexivity].
  rewrite fetch_score_parsed.
  destruct (as_case_payload selected)
    as (Hopt & c & Hc & Hs & Ht & Hcase & Hquiet).
  rewrite Hopt, Hc, Hs, Ht, Hcase, Hquiet. cbn [truthy].
  assert (Htype : String.eqb (App.type_name (App.type selected)) "" = false)
    by (destruct (App.type selected); reflexivity).
  rewrite Htype. cbn [negb]. rewrite andb_true_r.
  destruct (String.eqb (App.summary selected) ""); reflexivity.
Qed.

(** X17: what the screen submits as feedback is well-formed in the
    specification's words and carries reason codes of the declared type;
    the worker stores it, unless the score's case_id is empty, in which case
    it answers 400. *)
Theorem screen_feedback env amb g (result : ScoreResponse.t)
  (action : App.Action) (reasons : list string) (notes : string) :
  let payload := App.feedback_payload result action reasons notes in
  spec_feedback_valid payload = true
  /\ declared_reason_codes payload = Some reasons
  /\ fetch env amb (post "/feedback" (Parsed payload)) g =
     if String.eqb (ScoreResponse.case_id result) ""
     then (Returns (json_response (ErrorBody "Invalid feedback payload") 400), g)
     else (accepted,
           Some {| feedback :=
                     (records g ++ [stored_feedback amb payload])%list |}).
Proof.
  cbv zeta. split; [|split].
  - unfold App.feedback_payload.
    destruct action, (ScoreResponse.verdict result); reflexivity.
  - unfold declared_reason_codes. cbn [App.feedback_payload get lookup].
    cbn. apply strings_of_map.
  - rewrite fetch_feedback, feedback_route_spec by discriminate.
    assert (Hreq : required_fields_truthy
                     (App.feedback_payload result action reasons notes)
                   = negb (String.eqb (ScoreResponse.case_id result) "")).
    { unfold required_fields_truthy, App.feedback_payload.
      cbn [get lookup String.eqb Ascii.eqb Bool.eqb truthy].
      destruct action, (ScoreResponse.verdict result); cbn;
        now rewrite ?andb_true_r. }
    rewrite Hreq.
    destruct (String.eqb (ScoreResponse.case_id result) ""); reflexivity.
Qed.

Lemma percent_hundredths (k : Z) :
  0 <= k <= 100 -> App.percent (JsNumber.hundredths k) = Some k.
Proof.
  intros Hk.
  assert (Hall : forallb
                   (fun h => match App.percent (JsNumber.hundredths h) with
                             | Some r => r =? h
                             | None => false
                             end)
                   (map Z.of_nat (seq 0 101)) = true)
    by (vm_compute; reflexivity).
  rewrite forallb_forall in Hall. specialize (Hall k).
  assert (Hin : In k (map Z.of_nat (seq 0 101))).
  { replace k with (Z.of_nat (Z.to_nat k)) by lia.
    apply in_map, in_seq. lia. }
  specialize (Hall Hin).
  destruct (App.percent (JsNumber.hundredths k)) as [r|]; [|discriminate].
  apply Z.eqb_eq in Hall. now subst r.
Qed.

(** X18: the confidence the screen shows with a score, [Math.round] of a
    hundred times the confidence, is 85% for a score of at least 80 or at
    most 20 and 65% otherwise: the binary64 product rounds back to the
    intended whole number. *)
Theorem confidence_percent (c : Case.t) :
  App.percent (confidence (scoreCase c))
  = Some (if (80 <=? score (scoreCase c)) || (score (scoreCase c) <=? 20)
          then 85 else 65).
Proof.
  change (confidence (scoreCase c)) with (confidenceOf (score (scoreCase c))).
  unfold confidenceOf.
  destruct ((80 <=? score (scoreCase c)) || (score (scoreCase c) <=? 20));
    apply percent_hundredths; lia.
Qed.

(** X19: the override rate the screen shows, [Math.round] of a hundred times
    the rate of the worker, is a whole percentage nearest to the share of
    overrides among the records, for a store of fewer than [2^32] records. *)
Theorem override_percent (fb : list json) :
  Z.of_nat (List.length fb) < 2 ^ 32 -> fb <> [] ->
  exists k,
    App.percent (override_rate_of fb) = Some k
    /\ 0 <= k <= 100
    /\ 2 * Z.abs (100 * overrides fb - k * Z.of_nat (List.length fb))
       <= Z.of_nat (List.length fb).
Proof.
  intros Hlen Hne.
  pose proof (overrides_range fb) as Ho.
  assert (Ht : 0 < Z.of_nat (List.length fb))
    by (destruct fb; [congruence|cbn [List.length]; lia]).
  unfold override_rate_of.
  destruct (Z.eqb_spec (Z.of_nat (List.length fb)) 0) as [|_]; [lia|].
  destruct (Z.eq_dec (overrides fb) 0) as [Hz|Hnz].
  - exists 0. rewrite Hz, rate_of_none by lia.
    split; [apply percent_hundredths; lia|lia].
  - destruct (rate_of_some (overrides fb) (Z.of_nat (List.length fb)))
      as (k & -> & Herr); [lia|lia|].
    assert (0 <= k <= 100) by nia.
    exists k. split; [now apply percent_hundredths|]. split; assumption.
Qed.

Lemma override_percent_witness :
  exists k,
    App.percent (override_rate_of three_reviews) = Some k
    /\ 0 <= k <= 100
    /\ 2 * Z.abs (100 * overrides three_reviews
                  - k * Z.of_nat (List.length three_reviews))
       <= Z.of_nat (List.length three_reviews).
Proof.
  apply (override_percent three_reviews).
  - cbn. lia.
  - discriminate.
Defined.

(** X20: ticking and unticking reason codes keeps the list free of
    duplicates: after a change the code is in the list exactly when its box
    is ticked, and the other codes stay as they were, in their order. *)
Theorem toggle_reason_keeps_set (checked : bool) (r : string)
  (prev : list string) :
  NoDup prev ->
  checked = negb (existsb (String.eqb r) prev) ->
  NoDup (App.toggle_reason checked r prev)
  /\ (In r (App.toggle_reason checked r prev) <-> checked = true)
  /\ filter (fun x => negb (String.eqb x r)) (App.toggle_reason checked r prev)
     = filter (fun x => negb (String.eqb x r)) prev.
Proof.
  intros Hnd Hc. unfold App.toggle_reason.
  destruct (existsb (String.eqb r) prev) eqn:Hin; subst checked; cbn [negb].
  - split; [|split].
    + now apply NoDup_filter.
    + split; [|discriminate]. intros H. apply filter_In in H.
      destruct H as [_ H]. now rewrite String.eqb_refl in H.
    + clear. induction prev as [|x prev IH]; cbn; [reflexivity|].
      destruct (String.eqb x r) eqn:E; cbn; [exact IH|].
      rewrite E. cbn. now rewrite IH.
  - assert (Hno : ~ In r prev).
    { intros H. assert (existsb (String.eqb r) prev = true)
        by (apply existsb_exists; exists r; split;
            [exact H|apply String.eqb_refl]).
      congruence. }
    split; [|split].
    + apply NoDup_app; [exact Hnd|repeat constructor; intros []|].
      intros x Hx [<-|[]]. contradiction.
    + split; [reflexivity|]. intros _. apply in_or_app. right. now left.
    + rewrite filter_app. cbn. rewrite String.eqb_refl. cbn.
      apply app_nil_r.
Qed.

Lemma toggle_reason_keeps_set_witness :
  NoDup (App.toggle_reason true "edge_case" ["false_positive"])
  /\ (In "edge_case" (App.toggle_reason true "edge_case" ["false_positive"])
      <-> true = true)
  /\ filter (fun x => negb (String.eqb x "edge_case"))
       (App.toggle_reason true "edge_case" ["false_positive"])
     = filter (fun x => negb (String.eqb x "edge_case")) ["false_positive"].
Proof.
  apply (toggle_reason_keeps_set true "edge_case" ["false_positive"]).
  - repeat constructor. intros [].
  - reflexivity.
Defined.

(** X21: the high_amount rule fires exactly when the amount is a number
    strictly above 500; the truthiness test in front of the comparison never
    decides, since zero and NaN are not above 500 anyway. *)
Theorem high_amount_iff (c : Case.t) :
  high_amount c = true
  <-> exists a, Case.amount c = Some a
                /\ JsNumber.gt a (JsNumber.of_Z 500) = true.
Proof.
  unfold high_amount. split.
  - destruct (Case.amount c) as [a|]; [|discriminate].
    intros H. apply andb_true_iff in H. exists a. tauto.
  - intros (a & -> & Hgt). rewrite Hgt, andb_true_r.
    destruct a as [s|s| |s m e]; try reflexivity; discriminate Hgt.
Qed.

(** ** The override rate of a summary *)

Lemma overrides_records (fb : list json) : overrides fb = override_records fb.
Proof.
  unfold overrides, override_records, occurrences, actions.
  induction fb as [|f fb IH]; [reflexivity|].
  cbn [filter flat_map]. rewrite count_occ_app, Nat2Z.inj_add, <- IH.
  unfold is_override.
  destruct (get "action" f) as [[| | |a| |]|]; cbn [count_occ]; try lia.
  destruct (String.eqb_spec a "Override") as [->|Hne].
  - cbn [List.length count_occ]. destruct (string_dec _ _); [lia|congruence].
  - cbn [count_occ]. destruct (string_dec a "Override"); [congruence|lia].
Qed.

Lemma override_rate_rounds (fb : list json) :
  Z.of_nat (List.length fb) < 2 ^ 32 ->
  if Z.of_nat (List.length fb) =? 0
  then override_rate_of fb = JsNumber.of_Z 0
  else exists k,
         0 <= k <= 100
         /\ override_rate_of fb = JsNumber.hundredths k
         /\ 2 * Z.abs (100 * override_records fb
                       - k * Z.of_nat (List.length fb))
            <= Z.of_nat (List.length fb).
Proof.
  intros Hlen. rewrite <- overrides_records.
  pose proof (overrides_range fb) as Ho.
  unfold override_rate_of.
  destruct (Z.eqb_spec (Z.of_nat (List.length fb)) 0) as [|Hne];
    [reflexivity|].
  destruct (Z.eq_dec (overrides fb) 0) as [Hz|Hnz].
  - exists 0. rewrite Hz. split; [lia|]. split; [|lia].
    apply rate_of_none. lia.
  - destruct (rate_of_some (overrides fb) (Z.of_nat (List.length fb)))
      as (k & Hk & Herr); [lia|lia|].
    exists k. split; [nia|]. split; [exact Hk|exact Herr].
Qed.

(** C8, as the code has it: on a store of fewer than 2^32 records the
    analytics request throws a TypeError when some record's reason_codes
    cannot be iterated or hold an item that cannot be made a property key,
    and returns no rate; on every other store it returns a summary whose
    total is the number of records and whose override rate is the number of
    records with action Override divided by that total, rounded to two
    decimals (the two-decimal numeral of a whole number of hundredths nearest
    to the quotient), and 0 on an empty store, whose summary is total 0,
    rate 0, no reasons. *)
Theorem C8_override_rate env amb p (g : Global) :
  Z.of_nat (List.length (records g)) < 2 ^ 32 ->
  if existsb unreadable (records g)
  then fst (fetch env amb (get_analytics p) g) = Throws TypeError
  else
    exists b rate,
      fst (fetch env amb (get_analytics p) g) = Returns (json_response b 200)
      /\ summary_of b = Some (Z.of_nat (List.length (records g)), rate)
      /\ if Z.of_nat (List.length (records g)) =? 0
         then rate = JsNumber.of_Z 0 /\ b = AnalyticsBody empty_summary
         else exists k,
                0 <= k <= 100
                /\ rate = JsNumber.hundredths k
                /\ 2 * Z.abs (100 * override_records (records g)
                              - k * Z.of_nat (List.length (records g)))
                   <= Z.of_nat (List.length (records g)).
Proof.
  intros Hlen. rewrite fetch_analytics. unfold analytics_route.
  pose proof (getStore_records g) as Hfb.
  destruct (getStore g) as [store g1]. cbn [fst] in Hfb.
  cbv beta iota zeta. rewrite Hfb.
  pose proof (tally_raise (records g) (Some [])) as Ht.
  pose proof (override_rate_rounds (records g) Hlen) as Hrate.
  destruct (existsb unreadable (records g)); [now rewrite Ht|].
  destruct (records g) as [|f fb] eqn:Hrec.
  - eexists _, _. cbn [tally fst outcome_of]. split; [reflexivity|].
    split; [reflexivity|]. cbn. split; reflexivity.
  - rewrite <- Hrec in *. destruct Ht as [final ->].
    exists (match final with
            | Some reasons =>
                AnalyticsBody
                  {| Analytics.total_feedback :=
                       Z.of_nat (List.length (records g));
                     Analytics.override_rate := override_rate_of (records g);
                     Analytics.top_reasons := top_reasons_of reasons |}
            | None =>
                AnalyticsUntypedBody (Z.of_nat (List.length (records g)))
                  (override_rate_of (records g))
            end), (override_rate_of (records g)).
    split; [destruct final; reflexivity|].
    split; [destruct final; reflexivity|].
    destruct (Z.eqb_spec (Z.of_nat (List.length (records g))) 0) as [E|_];
      [rewrite Hrec in E; cbn [List.length] in E; lia|exact Hrate].
Qed.

Lemma C8_override_rate_witness :
  if existsb unreadable (records (Some {| feedback := three_reviews |}))
  then fst (fetch demo_env demo_ambient (get_analytics Malformed)
              (Some {| feedback := three_reviews |})) = Throws TypeError
  else
    exists b rate,
      fst (fetch demo_env demo_ambient (get_analytics Malformed)
             (Some {| feedback := three_reviews |}))
      = Returns (json_response b 200)
      /\ summary_of b
         = Some (Z.of_nat
                   (List.length (records (Some {| feedback := three_reviews |}))),
                 rate)
      /\ if Z.of_nat
              (List.length (records (Some {| feedback := three_reviews |})))
            =? 0
         then rate = JsNumber.of_Z 0 /\ b = AnalyticsBody empty_summary
         else exists k,
                0 <= k <= 100
                /\ rate = JsNumber.hundredths k
                /\ 2 * Z.abs
                         (100 * override_records
                                  (records (Some {| feedback := three_reviews |}))
                          - k * Z.of_nat
                                  (List.length
                                     (records
                                        (Some {| feedback := three_reviews |}))))
                   <= Z.of_nat
                        (List.length
                           (records (Some {| feedback := three_reviews |}))).
Proof.
  apply (C8_override_rate demo_env demo_ambient Malformed
           (Some {| feedback := three_reviews |})).
  cbn. lia.
Defined.

(** C8 as stated fails: a submission whose reason_codes is a number is
    acknowledged and stored, and on that store the analytics request throws
    and returns no override rate. *)
Lemma C8_unreadable_store_no_rate :
  fetch demo_env demo_ambient
    (post "/feedback" (Parsed numeric_reasons_feedback)) None
  = (Returns {| status := 200; body := OkBody |},
     Some {| feedback :=
               [ JObj [ ("case_id", JStr "CASE-1001");
                        ("reviewer", JStr "Analyst Demo");
                        ("action", JStr "Override");
                        ("final_verdict", JStr "Review");
                        ("reason_codes", JNum (JsNumber.of_Z 7));
                        ("received_at", JStr "2026-01-15T09:30:00.000Z") ] ] |})
  /\ fst (fetch demo_env demo_ambient (get_analytics Malformed)
            (snd (fetch demo_env demo_ambient
                    (post "/feedback" (Parsed numeric_reasons_feedback)) None)))
     = Throws TypeError
  /\ forall r,
       fst (fetch demo_env demo_ambient (get_analytics Malformed)
              (snd (fetch demo_env demo_ambient
                      (post "/feedback" (Parsed numeric_reasons_feedback))
                      None)))
       <> Returns r.
Proof. split; [reflexivity|]. split; [reflexivity|]. intros r. discriminate. Qed.
